(** * The lookaside caching route of mcrouter

    A shallow embedding of [CarbonLookasideRoute] and of its factory
    [createCarbonLookasideRoute] (mcrouter/routes/CarbonLookasideRoute.h).

    The route handle talks to three collaborators that live outside the
    header: the user supplied helper, the memcache client and the child route
    handle.  Their behaviour is left abstract: each call is a transition of an
    environment [Env], and every call the route makes is appended to a trace
    of [Event]s together with the answer it received.  The properties below
    are statements about the reply [route] returns and about that trace. *)

From Stdlib Require Import ZArith List String Ascii Lia Bool DecimalString.
From Stdlib.Strings Require Import Byte.
From Stdlib Require Import DecimalN.
Import ListNotations.
Local Open Scope Z_scope.

(** ** Plain data *)

(** [folly::IOBuf] holding a serialized value: a sequence of bytes. *)
Definition IOBuf : Type := list byte.

(** [int32_t] arithmetic: the value of a 32-bit two's complement result. *)
Definition wrap_int32 (z : Z) : Z := (z + 2 ^ 31) mod 2 ^ 32 - 2 ^ 31.

Definition mul_int32 (a b : Z) : Z := wrap_int32 (a * b).

(** [folly::to<std::string>] on an unsigned and on a signed integer. *)
Definition to_string_N (n : N) : string := NilEmpty.string_of_uint (N.to_uint n).

Definition to_string_Z (z : Z) : string := NilEmpty.string_of_int (Z.to_int z).

(** Modelled from the spec: [carbon::Result] with its classifiers
    [isHitResult] and [isMissResult] (mcrouter/lib/Operation.h is not among
    the sources).  The spec (section 6) gives a reply a result-class
    discriminant hit / miss / other. *)
Inductive Result : Type :=
| ResultHit
| ResultMiss
| ResultOther.

Definition isHitResult (r : Result) : bool :=
  match r with ResultHit => true | _ => false end.

Definition isMissResult (r : Result) : bool :=
  match r with ResultMiss => true | _ => false end.

(** The four memcache operations the route sends, with their replies. *)
Record McGetRequest : Type := { get_key : string }.

Record McGetReply : Type := {
  get_result : Result;
  get_value : option IOBuf
}.

Record McLeaseGetRequest : Type := { lease_get_key : string }.

Record McLeaseGetReply : Type := {
  lease_get_result : Result;
  lease_get_value : option IOBuf;
  lease_get_leaseToken : Z
}.

Record McSetRequest : Type := {
  set_key : string;
  set_exptime : Z;
  set_value : IOBuf
}.

Record McSetReply : Type := { set_result : Result }.

Record McLeaseSetRequest : Type := {
  lease_set_key : string;
  lease_set_exptime : Z;
  lease_set_leaseToken : Z;
  lease_set_value : IOBuf
}.

Record McLeaseSetReply : Type := { lease_set_result : Result }.

(** [folly::Optional::hasValue]. *)
Definition hasValue {A : Type} (o : option A) : bool :=
  match o with Some _ => true | None => false end.

(** [struct LeaseSettings], with the defaults of its member initializers. *)
Record LeaseSettings : Type := {
  enableLeases : bool;
  initialWaitMs : Z;
  maxWaitMs : Z;
  numRetries : Z
}.

Definition defaultLeaseSettings : LeaseSettings :=
  {| enableLeases := false; initialWaitMs := 2; maxWaitMs := 500;
     numRetries := 10 |}.

(** [constexpr size_t kLeaseHotMissToken = 1]. *)
Definition kLeaseHotMissToken : Z := 1.

(** ** JSON configuration ([folly::dynamic]) and exceptions *)

#[warnings="-register-all"]
Inductive dynamic : Type :=
| DNull
| DBool (b : bool)
| DInt (n : Z)
| DString (s : string)
| DArray (items : list dynamic)
| DObject (fields : list (string * dynamic)).

Definition isObject (j : dynamic) : bool :=
  match j with DObject _ => true | _ => false end.

Definition isInt (j : dynamic) : bool :=
  match j with DInt _ => true | _ => false end.

Definition isString (j : dynamic) : bool :=
  match j with DString _ => true | _ => false end.

Definition getInt (j : dynamic) : Z :=
  match j with DInt n => n | _ => 0 end.

Definition getString (j : dynamic) : string :=
  match j with DString s => s | _ => EmptyString end.

Fixpoint lookup_field (k : string) (fields : list (string * dynamic))
  : option dynamic :=
  match fields with
  | [] => None
  | (k', v) :: rest => if String.eqb k k' then Some v else lookup_field k rest
  end.

(** [json.get_ptr(key)]: the member, or [nullptr].  The factory only calls
    it after [json.isObject()] has been checked. *)
Definition get_ptr (j : dynamic) (k : string) : option dynamic :=
  match j with DObject fields => lookup_field k fields | _ => None end.

(** A computation that either returns or throws ([checkLogic] throws a
    [std::logic_error] carrying the message). *)
Inductive Exc (A : Type) : Type :=
| Return (a : A)
| Throw (what : string).

Arguments Return {A} a.
Arguments Throw {A} what.

Definition exc_bind {A B : Type} (c : Exc A) (k : A -> Exc B) : Exc B :=
  match c with
  | Return a => k a
  | Throw what => Throw what
  end.

Definition checkLogic (cond : bool) (what : string) : Exc unit :=
  if cond then Return tt else Throw what.

(** A step that returned: name its value, drop the throwing case. *)
Ltac exc_step H :=
  match type of H with
  | exc_bind ?c _ = Return _ =>
      let a := fresh "a" in
      let E := fresh "E" in
      destruct c as [a|] eqn:E; cbn [exc_bind] in H; [|discriminate H]
  end.

Tactic Notation "exc_bind_step" hyp(H) "as" ident(x) ident(E) :=
  match type of H with
  | exc_bind ?c _ = Return _ =>
      destruct c as [x|] eqn:E; cbn [exc_bind] in H; [|discriminate H]
  end.

Declare Scope exc_scope.
Delimit Scope exc_scope with exc.

Notation "'try' x <- c ;; k" := (exc_bind c (fun x => k))
  (at level 61, x name, c at next level, right associativity) : exc_scope.

Notation "'check' c 'else' msg ;; k" := (exc_bind (checkLogic c msg) (fun _ => k))
  (at level 61, c at next level, msg at next level, right associativity)
  : exc_scope.

(** ** The collaborators *)

(** [RouterInfo]: the request and reply types the route is instantiated at,
    the reply codec and the child route handles.  [Reply::deserialize] is a
    [void] method filling a default-constructed reply from a reader over the
    buffer; it either returns, and the reply is what it filled in, or throws
    (the reader throws when the buffer ends before the reply does).  [Env]
    is the state of everything the route calls into. *)
Class RouterInfo : Type := {
  Request : Type;
  Reply : Type;
  RouteHandlePtr : Type;
  Env : Type;
  serialize : Reply -> IOBuf;
  deserialize : IOBuf -> Exc Reply;
  child_route : RouteHandlePtr -> Request -> Env -> Reply * Env
}.

(** The [CarbonLookasideHelper] prototype of the header.  [cacheCandidate]
    and [buildKey] are not [const], so they may change the environment;
    [name] is called from the [const] method [routeName]. *)
Class CarbonLookasideHelperIf `{RouterInfo} : Type := {
  CarbonLookasideHelper : Type;
  helper_construct : option dynamic -> CarbonLookasideHelper;
  helper_name : CarbonLookasideHelper -> string;
  helper_cacheCandidate : CarbonLookasideHelper -> Request -> Env -> bool * Env;
  helper_buildKey : CarbonLookasideHelper -> Request -> Env -> string * Env
}.

(** The memcache side: [createCarbonLookasideRouter], the router's
    [createClient] (which may throw [std::runtime_error]) and
    [client->send] for each of the four operations. *)
Class MemcacheRouterInfo `{RouterInfo} : Type := {
  CarbonRouterInstance : Type;
  CarbonRouterClient : Type;
  createCarbonLookasideRouter : string -> string -> option CarbonRouterInstance;
  createClient : CarbonRouterInstance -> Z -> Exc CarbonRouterClient;
  client_send_get : CarbonRouterClient -> McGetRequest -> Env -> McGetReply * Env;
  client_send_lease_get :
    CarbonRouterClient -> McLeaseGetRequest -> Env -> McLeaseGetReply * Env;
  client_send_set : CarbonRouterClient -> McSetRequest -> Env -> McSetReply * Env;
  client_send_lease_set :
    CarbonRouterClient -> McLeaseSetRequest -> Env -> McLeaseSetReply * Env
}.

(** What the header uses and does not define: [globals::hostid()],
    [parseLeaseSettings] and [RouteHandleFactory::create] (a null pointer is
    [None]). *)
Class Externals `{RouterInfo} : Type := {
  hostid : N;
  parseLeaseSettings : dynamic -> Exc LeaseSettings;
  factory_create : dynamic -> option RouteHandlePtr
}.

(** ** The route handle *)

Section Route.

Context `{RI : RouterInfo} `{HI : !CarbonLookasideHelperIf}
        `{MI : !MemcacheRouterInfo} `{EI : !Externals}.

(** The detached fibers [carbonLookasideSet] starts with
    [folly::fibers::addTask]: each sends one request and waits for the
    reply. *)
Inductive Task : Type :=
| TaskSendSet (req : McSetRequest)
| TaskSendLeaseSet (req : McLeaseSetRequest).

(** One entry per call the route makes on a collaborator, in program order,
    with the answer received. *)
Inductive Event : Type :=
| EvSendGet (req : McGetRequest) (reply : McGetReply)
| EvSendLeaseGet (req : McLeaseGetRequest) (reply : McLeaseGetReply)
| EvSendSet (req : McSetRequest) (reply : McSetReply)
| EvSendLeaseSet (req : McLeaseSetRequest) (reply : McLeaseSetReply)
| EvSleep (ms : Z)
| EvChildRoute (child : RouteHandlePtr) (req : Request) (reply : Reply)
| EvAddTask (task : Task).

Record World : Type := {
  env : Env;
  trace : list Event
}.

(** State passing over the world. *)
Definition M (A : Type) : Type := World -> A * World.

Definition ret {A : Type} (a : A) : M A := fun w => (a, w).

Definition bind {A B : Type} (c : M A) (k : A -> M B) : M B :=
  fun w => let (a, w') := c w in k a w'.

Definition emit (e : Event) : M unit :=
  fun w => (tt, {| env := env w; trace := trace w ++ [e] |}).

Definition call {A : Type} (f : Env -> A * Env) : M A :=
  fun w => let (a, e') := f (env w) in (a, {| env := e'; trace := trace w |}).

End Route.

Declare Scope route_scope.
Delimit Scope route_scope with route.

Notation "x <- c ;; k" := (bind c (fun x => k))
  (at level 61, c at next level, right associativity) : route_scope.

Notation "' pat <- c ;; k" := (bind c (fun x => match x with pat => k end))
  (at level 61, pat pattern, c at next level, right associativity) : route_scope.

Notation "c ;; k" := (bind c (fun _ => k))
  (at level 61, right associativity) : route_scope.

Section Methods.

Context `{RI : RouterInfo} `{HI : !CarbonLookasideHelperIf}
        `{MI : !MemcacheRouterInfo} `{EI : !Externals}.

Local Open Scope route_scope.

(** The private members of [CarbonLookasideRoute]. *)
Record CarbonLookasideRoute : Type := {
  child_ : RouteHandlePtr;
  router_ : CarbonRouterInstance;
  client_ : CarbonRouterClient;
  keyPrefix_ : string;
  keySuffix_ : string;
  ttl_ : Z;
  carbonLookasideHelper_ : CarbonLookasideHelper;
  leaseSettings_ : LeaseSettings
}.

Definition buildKeySuffix (keySplitSize : N) : string :=
  if (keySplitSize <=? 1)%N then EmptyString
  else (":ks" ++ to_string_N (hostid mod keySplitSize))%string.

(** The constructor: every member is moved in, except [keySuffix_], which
    is built from [keySplitSize]. *)
Definition makeCarbonLookasideRoute
    (child : RouteHandlePtr) (router : CarbonRouterInstance)
    (client : CarbonRouterClient) (prefix : string) (keySplitSize : N)
    (ttl : Z) (helper : CarbonLookasideHelper) (leaseSettings : LeaseSettings)
  : CarbonLookasideRoute :=
  {| child_ := child;
     router_ := router;
     client_ := client;
     keyPrefix_ := prefix;
     keySuffix_ := buildKeySuffix keySplitSize;
     ttl_ := ttl;
     carbonLookasideHelper_ := helper;
     leaseSettings_ := leaseSettings |}.

(** [child->route(req)] on a route handle of the tree, with its outcome:
    the handles of the model always return. *)
Definition routeHandle_route (child : RouteHandlePtr) (req : Request)
  : M (Exc Reply) :=
  reply <- call (child_route child req) ;;
  emit (EvChildRoute child req reply) ;;
  ret (Return reply).

Variable this : CarbonLookasideRoute.

Definition routeName : string :=
  ("lookaside-cache|name=" ++ helper_name (carbonLookasideHelper_ this)
     ++ "|ttl=" ++ to_string_Z (ttl_ this)
     ++ "s|leases="
     ++ (if enableLeases (leaseSettings_ this) then "true" else "false"))%string.

(** [traverse] hands the child, and nothing else, to the traverser. *)
Definition traverse {T : Type} (req : Request)
    (t : RouteHandlePtr -> Request -> T) : T :=
  t (child_ this) req.

(** [client_->send(...)] followed by [baton.wait()]: the fiber resumes with
    the reply the callback received. *)
Definition send_get (req : McGetRequest) : M McGetReply :=
  reply <- call (client_send_get (client_ this) req) ;;
  emit (EvSendGet req reply) ;;
  ret reply.

Definition send_lease_get (req : McLeaseGetRequest) : M McLeaseGetReply :=
  reply <- call (client_send_lease_get (client_ this) req) ;;
  emit (EvSendLeaseGet req reply) ;;
  ret reply.

Definition send_set (req : McSetRequest) : M McSetReply :=
  reply <- call (client_send_set (client_ this) req) ;;
  emit (EvSendSet req reply) ;;
  ret reply.

Definition send_lease_set (req : McLeaseSetRequest) : M McLeaseSetReply :=
  reply <- call (client_send_lease_set (client_ this) req) ;;
  emit (EvSendLeaseSet req reply) ;;
  ret reply.

(** [sleepBaton.try_wait_for(std::chrono::milliseconds(ms))] on a baton
    nobody posts. *)
Definition sleep (ms : Z) : M unit := emit (EvSleep ms).

Definition addTask (task : Task) : M unit := emit (EvAddTask task).

(** What a detached fiber does once the scheduler runs it. *)
Definition runTask (task : Task) : M unit :=
  match task with
  | TaskSendSet req => send_set req ;; ret tt
  | TaskSendLeaseSet req => send_lease_set req ;; ret tt
  end.

(** [buildKey]: [folly::to<std::string>(keyPrefix_, helper.buildKey(req),
    keySuffix_)]. *)
Definition buildKey (req : Request) : M string :=
  k <- call (helper_buildKey (carbonLookasideHelper_ this) req) ;;
  ret (keyPrefix_ this ++ k ++ keySuffix_ this)%string.

(** The callback of [carbonLookasideGet(key)]: the new value of [ret], or
    the exception [deserialize] threw before [ret.assign]; the callback
    catches nothing. *)
Definition getCallback (ret_ : option Reply) (cacheReply : McGetReply)
  : Exc (option Reply) :=
  if isHitResult (get_result cacheReply) && hasValue (get_value cacheReply)
  then
    match get_value cacheReply with
    | Some value => (try reply <- deserialize value ;; Return (Some reply))%exc
    | None => Return ret_
    end
  else Return ret_.

(** [carbonLookasideGet(key)], the overload without a lease token: what it
    returns, or the exception that left the callback. *)
Definition carbonLookasideGet_plain (key : string) : M (Exc (option Reply)) :=
  let cacheRequest := {| get_key := key |} in
  cacheReply <- send_get cacheRequest ;;
  ret (getCallback None cacheReply).

(** The callback of [carbonLookasideLeaseGet]: from [ret] and [leaseToken]
    as they stand, the new [ret] (or the exception [deserialize] threw,
    which the callback does not catch), [retry] and [leaseToken]. *)
Definition leaseGetCallback (ret_ : option Reply) (leaseToken : Z)
    (cacheReply : McLeaseGetReply) : Exc (option Reply) * bool * Z :=
  let retry := false in
  if isHitResult (lease_get_result cacheReply)
     && hasValue (lease_get_value cacheReply)
  then
    match lease_get_value cacheReply with
    | Some value =>
        ((try reply <- deserialize value ;; Return (Some reply))%exc,
         retry, leaseToken)
    | None => (Return ret_, retry, leaseToken)
    end
  else if isMissResult (lease_get_result cacheReply) then
    if lease_get_leaseToken cacheReply =? kLeaseHotMissToken
    then (Return ret_, true, leaseToken)
    else (Return ret_, retry, lease_get_leaseToken cacheReply)
  else (Return ret_, retry, leaseToken).

(** The [for] loop of [carbonLookasideLeaseGet].  [remaining] counts the
    iterations still allowed by [attempt <= numRetries], that is
    [numRetries + 1 - attempt] of them; running out is the [return ret]
    after the loop.  [attempt] never leaves the [int32_t] range while the
    guard holds.  [ret_] and [leaseToken] are the variables the callback
    captures by reference.  An exception that leaves the callback leaves the
    loop and the function. *)
Fixpoint leaseGetLoop (remaining : nat) (attempt nextInterval : Z)
    (cacheRequest : McLeaseGetRequest) (ret_ : option Reply) (leaseToken : Z)
  : M (Exc (option Reply) * Z) :=
  match remaining with
  | O => ret (Return ret_, leaseToken)
  | S remaining' =>
      nextInterval' <-
        (if negb (attempt =? 0) then
           sleep nextInterval ;;
           ret (Z.min (mul_int32 nextInterval 2)
                      (maxWaitMs (leaseSettings_ this)))
         else ret nextInterval) ;;
      cacheReply <- send_lease_get cacheRequest ;;
      let '(called, retry, leaseToken') :=
        leaseGetCallback ret_ leaseToken cacheReply in
      match called with
      | Throw what => ret (Throw what, leaseToken')
      | Return ret' =>
          if negb retry then ret (Return ret', leaseToken')
          else leaseGetLoop remaining' (attempt + 1) nextInterval'
                 cacheRequest ret' leaseToken'
      end
  end.

(** [carbonLookasideLeaseGet(key, leaseToken)]: what it returns or throws,
    next to the reference parameter. *)
Definition carbonLookasideLeaseGet (key : string) (leaseToken : Z)
  : M (Exc (option Reply) * Z) :=
  let leaseToken := 0 in
  let cacheRequest := {| lease_get_key := key |} in
  let nextInterval := initialWaitMs (leaseSettings_ this) in
  leaseGetLoop (Z.to_nat (numRetries (leaseSettings_ this) + 1)) 0
    nextInterval cacheRequest None leaseToken.

(** [carbonLookasideGet(key, leaseToken)]. *)
Definition carbonLookasideGet (key : string) (leaseToken : Z)
  : M (Exc (option Reply) * Z) :=
  if enableLeases (leaseSettings_ this)
  then carbonLookasideLeaseGet key leaseToken
  else
    r <- carbonLookasideGet_plain key ;;
    ret (r, leaseToken).

(** [serializeOffFiber]: the reply serialized on the main context. *)
Definition serializeOffFiber (reply : Reply) : IOBuf := serialize reply.

(** [carbonLookasideSet(key, reply)], the overload without a lease token. *)
Definition carbonLookasideSet_plain (key : string) (reply : Reply) : M unit :=
  let req :=
    {| set_key := key;
       set_exptime := ttl_ this;
       set_value := serializeOffFiber reply |} in
  addTask (TaskSendSet req).

Definition carbonLookasideLeaseSet (key : string) (reply : Reply)
    (leaseToken : Z) : M unit :=
  let req :=
    {| lease_set_key := key;
       lease_set_exptime := ttl_ this;
       lease_set_leaseToken := leaseToken;
       lease_set_value := serializeOffFiber reply |} in
  addTask (TaskSendLeaseSet req).

(** [carbonLookasideSet(key, reply, leaseToken)]. *)
Definition carbonLookasideSet (key : string) (reply : Reply) (leaseToken : Z)
  : M unit :=
  if enableLeases (leaseSettings_ this) && negb (leaseToken =? 0)
  then carbonLookasideLeaseSet key reply leaseToken
  else carbonLookasideSet_plain key reply.

(** [route]: the reply it returns, or the exception that ends the call.
    The header has no handler: when [deserialize] throws in a callback,
    [baton.post()] and [ret.assign] are skipped, nothing of [route] after
    the read runs, and the call yields no reply. *)
Definition route (req : Request) : M (Exc Reply) :=
  let leaseToken := 0 in
  let key := EmptyString in
  cacheCandidate <- call (helper_cacheCandidate (carbonLookasideHelper_ this) req) ;;
  '(key, optReply, leaseToken) <-
    (if cacheCandidate : bool then
       key <- buildKey req ;;
       '(optReply, leaseToken) <- carbonLookasideGet key leaseToken ;;
       ret (key, optReply, leaseToken)
     else ret (key, Return None, leaseToken)) ;;
  match optReply with
  | Throw what => ret (Throw what)
  | Return (Some reply) => ret (Return reply)
  | Return None =>
      routed <- routeHandle_route (child_ this) req ;;
      match routed with
      | Throw what => ret (Throw what)
      | Return reply =>
          (if cacheCandidate : bool
           then carbonLookasideSet key reply leaseToken
           else ret tt) ;;
          ret (Return reply)
      end
  end.

End Methods.

(** ** The factory *)

Section Factory.

Context `{RI : RouterInfo} `{HI : !CarbonLookasideHelperIf}
        `{MI : !MemcacheRouterInfo} `{EI : !Externals}.

Local Open Scope exc_scope.
Local Open Scope string_scope.

(** What [createCarbonLookasideRoute] hands back: the child it created,
    moved out as it is, or a new handle around a [CarbonLookasideRoute]. *)
Inductive CreatedRouteHandle : Type :=
| ChildItself (child : RouteHandlePtr)
| MadeRouteHandle (r : CarbonLookasideRoute).

(** [checkLogic(ptr != nullptr, what)] followed by the dereference. *)
Definition checkNotNull {A : Type} (ptr : option A) (what : string) : Exc A :=
  match ptr with
  | Some a => Return a
  | None => Throw what
  end.

(** An optional string property with its default. *)
Definition stringProperty (json : dynamic) (key default what : string)
  : Exc string :=
  match get_ptr json key with
  | Some j => check isString j else what ;; Return (getString j)
  | None => Return default
  end.

Definition createCarbonLookasideRoute (json : dynamic)
  : Exc CreatedRouteHandle :=
  check isObject json else "CarbonLookasideRoute is not an object" ;;
  try jChild <- checkNotNull (get_ptr json "child")
                  "CarbonLookasideRoute: 'child' property is missing" ;;
  try child <- checkNotNull (factory_create jChild)
                 "CarbonLookasideRoute: cannot create route handle from 'child'" ;;
  try jTtl <- checkNotNull (get_ptr json "ttl")
                "CarbonLookasideRoute: 'ttl' property is missing" ;;
  check isInt jTtl else "CarbonLookasideRoute: 'ttl' is not an integer" ;;
  let ttl := wrap_int32 (getInt jTtl) in
  try prefix <- stringProperty json "prefix" ""
                  "CarbonLookasideRoute: 'prefix' is not a string" ;;
  try flavor <- stringProperty json "flavor" "web"
                  "CarbonLookasideRoute: 'flavor' is not a string" ;;
  try keySplitSize <-
    match get_ptr json "key_split_size" with
    | Some j =>
        check isInt j && (0 <? getInt j)%Z
        else "CarbonLookasideRoute: 'key_split_size' must be a positive integer" ;;
        Return (Z.to_N (getInt j))
    | None => Return 1%N
    end ;;
  try leaseSettings <- parseLeaseSettings json ;;
  let helperConfig := get_ptr json "helper_config" in
  try _ <-
    match helperConfig with
    | Some j =>
        checkLogic (isObject j)
          "CarbonLookasideRoute: 'helper_config' is not an object"
    | None => Return tt
    end ;;
  let helper := helper_construct helperConfig in
  let persistenceId := "CarbonLookasideClient:" ++ flavor in
  match createCarbonLookasideRouter persistenceId flavor with
  | None => Return (ChildItself child)
  | Some router =>
      match createClient router 0 with
      | Throw _ => Return (ChildItself child)
      | Return client =>
          Return (MadeRouteHandle
                    (makeCarbonLookasideRoute child router client prefix
                       keySplitSize ttl helper leaseSettings))
      end
  end.

(** Routing and traversal through the handle the factory returned. *)
Definition handle_route (h : CreatedRouteHandle) (req : Request)
  : M (Exc Reply) :=
  match h with
  | ChildItself child => routeHandle_route child req
  | MadeRouteHandle r => route r req
  end.

Definition handle_traverse {T : Type} (h : CreatedRouteHandle) (req : Request)
    (t : RouteHandlePtr -> Request -> T) : T :=
  match h with
  | ChildItself child => t child req
  | MadeRouteHandle r => traverse r req t
  end.

End Factory.

(** ** Reading a trace *)

Section Observations.

Context `{RI : RouterInfo} `{HI : !CarbonLookasideHelperIf}
        `{MI : !MemcacheRouterInfo} `{EI : !Externals}.

(** The memcache key an event carries: that of the request sent, or of the
    request a detached write will send.  Sleeping and routing to the child
    are not cache operations. *)
Definition eventKey (e : Event) : option string :=
  match e with
  | EvSendGet req _ => Some (get_key req)
  | EvSendLeaseGet req _ => Some (lease_get_key req)
  | EvSendSet req _ => Some (set_key req)
  | EvSendLeaseSet req _ => Some (lease_set_key req)
  | EvAddTask (TaskSendSet req) => Some (set_key req)
  | EvAddTask (TaskSendLeaseSet req) => Some (lease_set_key req)
  | EvSleep _ => None
  | EvChildRoute _ _ _ => None
  end.

Definition isCacheOperation (e : Event) : bool := hasValue (eventKey e).

Definition isCacheWrite (e : Event) : bool :=
  match e with
  | EvSendSet _ _ | EvSendLeaseSet _ _ | EvAddTask _ => true
  | _ => false
  end.

Definition isChildRoute (e : Event) : bool :=
  match e with EvChildRoute _ _ _ => true | _ => false end.

Definition isLeaseGet (e : Event) : bool :=
  match e with EvSendLeaseGet _ _ => true | _ => false end.

(** How often the child was routed to, and what was done on the cache. *)
Definition childRouteCalls (t : list Event) : nat :=
  List.length (filter isChildRoute t).

Definition cacheOperations (t : list Event) : list Event :=
  filter isCacheOperation t.

Definition cacheWrites (t : list Event) : list Event :=
  filter isCacheWrite t.

(** The outcomes of a LEASE_GET the read protocol tells apart (spec 4.3,
    steps c to f). *)
Inductive LeaseGetOutcome : Type :=
| LeaseHit (value : IOBuf)
| LeaseHotMiss
| LeaseMiss (token : Z)
| LeaseOther.

Definition classifyLeaseGet (r : McLeaseGetReply) : LeaseGetOutcome :=
  match lease_get_result r, lease_get_value r with
  | ResultHit, Some value => LeaseHit value
  | ResultMiss, _ =>
      if lease_get_leaseToken r =? 1 then LeaseHotMiss
      else LeaseMiss (lease_get_leaseToken r)
  | _, _ => LeaseOther
  end.

Definition isHotMiss (r : McLeaseGetReply) : Prop :=
  classifyLeaseGet r = LeaseHotMiss.

(** The sleeps of the retry schedule: the first lasts [wait], each later
    one [min(wait * 2, maxWaitMs)] of the one before, in [int32_t]. *)
Fixpoint backoffIntervals (maxWait wait : Z) (n : nat) : list Z :=
  match n with
  | O => []
  | S n' => wait :: backoffIntervals maxWait (Z.min (mul_int32 wait 2) maxWait) n'
  end.

(** A run of retries: before each LEASE_GET, one sleep. *)
Definition retriesTrace (req : McLeaseGetRequest) (intervals : list Z)
    (replies : list McLeaseGetReply) : list Event :=
  flat_map (fun p => [EvSleep (fst p); EvSendLeaseGet req (snd p)])
    (combine intervals replies).

(** The events of a lease read that received [replies], in order: the first
    LEASE_GET at once, every later one after a sleep of the schedule. *)
Definition leaseGetTrace (ls : LeaseSettings) (key : string)
    (replies : list McLeaseGetReply) : list Event :=
  let req := {| lease_get_key := key |} in
  match replies with
  | [] => []
  | first :: rest =>
      EvSendLeaseGet req first
        :: retriesTrace req
             (backoffIntervals (maxWaitMs ls) (initialWaitMs ls) (List.length rest))
             rest
  end.

(** A stretch of trace that only reads the cache, and only under [key]:
    no child is routed to, nothing is written. *)
Definition readOnly (key : string) (reads : list Event) : Prop :=
  forall e, In e reads ->
    isChildRoute e = false /\ isCacheWrite e = false
    /\ (forall key', eventKey e = Some key' -> key' = key).

(** The event is a GET or a LEASE_GET answered by a hit carrying [value]. *)
Definition hitWith (value : IOBuf) (e : Event) : Prop :=
  match e with
  | EvSendGet _ r => get_result r = ResultHit /\ get_value r = Some value
  | EvSendLeaseGet _ r =>
      lease_get_result r = ResultHit /\ lease_get_value r = Some value
  | _ => False
  end.

(** The replies to the LEASE_GETs of a trace, in order. *)
Fixpoint leaseGetReplies (t : list Event) : list McLeaseGetReply :=
  match t with
  | [] => []
  | EvSendLeaseGet _ r :: rest => r :: leaseGetReplies rest
  | _ :: rest => leaseGetReplies rest
  end.

(** The last reply a read received, if it received any. *)
Fixpoint lastReply {A : Type} (l : list A) : option A :=
  match l with
  | [] => None
  | [x] => Some x
  | _ :: rest => lastReply rest
  end.

(** What a lease read that started with [leaseToken] hands back after its
    last reply (spec 4.3, steps c to f and 3). *)
Definition leaseGetResult (leaseToken : Z) (last : option McLeaseGetReply)
  : Exc (option Reply) * Z :=
  match last with
  | None => (Return None, leaseToken)
  | Some r =>
      match classifyLeaseGet r with
      | LeaseHit value =>
          ((try reply <- deserialize value ;; Return (Some reply))%exc,
           leaseToken)
      | LeaseMiss token => (Return None, token)
      | LeaseHotMiss => (Return None, leaseToken)
      | LeaseOther => (Return None, leaseToken)
      end
  end.

(** The answers the cache client gives to [n] LEASE_GETs of [req] sent one
    after the other from the environment [e], and the environment they
    leave. *)
Fixpoint leaseGetAnswers (client : CarbonRouterClient) (req : McLeaseGetRequest)
    (n : nat) (e : Env) : list McLeaseGetReply * Env :=
  match n with
  | O => ([], e)
  | S n' =>
      let (r, e1) := client_send_lease_get client req e in
      let (rs, e2) := leaseGetAnswers client req n' e1 in
      (r :: rs, e2)
  end.

(** The most attempts a lease read makes. *)
Definition maxAttempts (ls : LeaseSettings) : nat :=
  Z.to_nat (numRetries ls + 1).

(** The write [route] dispatches for [reply] under [key] when it holds
    [leaseToken] (spec 4.4). *)
Definition expectedWrite (this : CarbonLookasideRoute) (key : string)
    (reply : Reply) (leaseToken : Z) : Task :=
  if enableLeases (leaseSettings_ this) && negb (leaseToken =? 0)
  then TaskSendLeaseSet {| lease_set_key := key;
                           lease_set_exptime := ttl_ this;
                           lease_set_leaseToken := leaseToken;
                           lease_set_value := serialize reply |}
  else TaskSendSet {| set_key := key;
                      set_exptime := ttl_ this;
                      set_value := serialize reply |}.

(** The flavor a configuration selects, and the router and client the
    factory obtains for it, if it can. *)
Definition configFlavor (json : dynamic) : string :=
  match get_ptr json "flavor" with
  | Some j => getString j
  | None => "web"%string
  end.

Definition acquireCacheClient (flavor : string)
  : option (CarbonRouterInstance * CarbonRouterClient) :=
  match createCarbonLookasideRouter ("CarbonLookasideClient:" ++ flavor)%string flavor with
  | None => None
  | Some router =>
      match createClient router 0 with
      | Return client => Some (router, client)
      | Throw _ => None
      end
  end.

(** The steps of a read: a GET, a LEASE_GET or a sleep. *)
Definition isReadStep (e : Event) : bool :=
  match e with
  | EvSendGet _ _ | EvSendLeaseGet _ _ | EvSleep _ => true
  | _ => false
  end.

(** The value, the expiration and, for a LEASE_SET, the token of the
    request a detached write sends. *)
Definition taskValue (task : Task) : IOBuf :=
  match task with
  | TaskSendSet req => set_value req
  | TaskSendLeaseSet req => lease_set_value req
  end.

Definition taskExptime (task : Task) : Z :=
  match task with
  | TaskSendSet req => set_exptime req
  | TaskSendLeaseSet req => lease_set_exptime req
  end.

Definition taskLeaseToken (task : Task) : option Z :=
  match task with
  | TaskSendSet _ => None
  | TaskSendLeaseSet req => Some (lease_set_leaseToken req)
  end.

(** The durations of the sleeps of a stretch of trace, in order. *)
Fixpoint sleeps (t : list Event) : list Z :=
  match t with
  | [] => []
  | EvSleep ms :: rest => ms :: sleeps rest
  | _ :: rest => sleeps rest
  end.

(** The time a stretch of trace spends asleep, in milliseconds. *)
Fixpoint sleptMs (t : list Event) : Z :=
  match t with
  | [] => 0
  | EvSleep ms :: rest => ms + sleptMs rest
  | _ :: rest => sleptMs rest
  end.

(** The prefix and the split size a configuration selects, with their
    defaults. *)
Definition configPrefix (json : dynamic) : string :=
  match get_ptr json "prefix" with
  | Some j => getString j
  | None => EmptyString
  end.

Definition configKeySplitSize (json : dynamic) : N :=
  match get_ptr json "key_split_size" with
  | Some j => Z.to_N (getInt j)
  | None => 1%N
  end.

(** The checks a configuration has to pass for the factory to return. *)
Definition configAccepted (json : dynamic) : Prop :=
  isObject json = true
  /\ (exists jChild child,
        get_ptr json "child" = Some jChild /\ factory_create jChild = Some child)
  /\ (exists n, get_ptr json "ttl" = Some (DInt n))
  /\ (forall j, get_ptr json "prefix" = Some j -> isString j = true)
  /\ (forall j, get_ptr json "flavor" = Some j -> isString j = true)
  /\ (forall j, get_ptr json "key_split_size" = Some j ->
        exists n, j = DInt n /\ 0 < n)
  /\ (exists ls, parseLeaseSettings json = Return ls)
  /\ (forall j, get_ptr json "helper_config" = Some j -> isObject j = true).

End Observations.

(** ** A deterministic test double

    The fixtures of the spec's concrete scenarios: a helper that answers
    from the request, a cache that replays scripted replies, and a child
    that echoes the request key. *)

Module Scenario.

Local Open Scope string_scope.

Record TestRequest : Type := {
  req_key : string;
  req_cacheable : bool
}.

Record TestReply : Type := {
  reply_result : Result;
  reply_message : string
}.

Definition defaultReply : TestReply :=
  {| reply_result := ResultOther; reply_message := "" |}.

(** The test codec: one byte for the result, then the message.  [decode] is
    the reading of a buffer; [test_deserialize] throws, as the reader of the
    codec does, where the buffer ends before the reply. *)
Definition result_to_byte (r : Result) : byte :=
  match r with ResultHit => x01 | ResultMiss => x02 | ResultOther => x00 end.

Definition result_of_byte (b : byte) : Result :=
  match b with x01 => ResultHit | x02 => ResultMiss | _ => ResultOther end.

Definition test_serialize (r : TestReply) : IOBuf :=
  result_to_byte (reply_result r) :: list_byte_of_string (reply_message r).

Definition decode (buf : IOBuf) : option TestReply :=
  match buf with
  | [] => None
  | b :: rest =>
      Some {| reply_result := result_of_byte b;
              reply_message := string_of_list_byte rest |}
  end.

Definition test_deserialize (buf : IOBuf) : Exc TestReply :=
  match decode buf with
  | Some r => Return r
  | None => Throw "underflow"
  end.

(** The scripted cache. *)
Record TestEnv : Type := {
  get_script : list McGetReply;
  lease_get_script : list McLeaseGetReply
}.

Definition unavailable_get : McGetReply :=
  {| get_result := ResultOther; get_value := None |}.

Definition unavailable_lease_get : McLeaseGetReply :=
  {| lease_get_result := ResultOther; lease_get_value := None;
     lease_get_leaseToken := 0 |}.

Definition test_child_route (child : string) (req : TestRequest) (e : TestEnv)
  : TestReply * TestEnv :=
  ({| reply_result := ResultHit; reply_message := child ++ ":" ++ req_key req |}, e).

#[local] Instance testRouterInfo : RouterInfo := {|
  Request := TestRequest;
  Reply := TestReply;
  RouteHandlePtr := string;
  Env := TestEnv;
  serialize := test_serialize;
  deserialize := test_deserialize;
  child_route := test_child_route
|}.

#[local] Instance testHelper : CarbonLookasideHelperIf := {|
  CarbonLookasideHelper := unit;
  helper_construct := fun _ => tt;
  helper_name := fun _ => "test";
  helper_cacheCandidate := fun _ (req : Request) e => (req_cacheable req, e);
  helper_buildKey := fun _ (req : Request) e => (req_key req, e)
|}.

Definition test_send_get (e : TestEnv) : McGetReply * TestEnv :=
  match get_script e with
  | [] => (unavailable_get, e)
  | r :: rest =>
      (r, {| get_script := rest; lease_get_script := lease_get_script e |})
  end.

Definition test_send_lease_get (e : TestEnv) : McLeaseGetReply * TestEnv :=
  match lease_get_script e with
  | [] => (unavailable_lease_get, e)
  | r :: rest => (r, {| get_script := get_script e; lease_get_script := rest |})
  end.

(** A router exists for the flavors "web" and "noclient"; only the first
    can create a client. *)
#[local] Instance testMemcache : MemcacheRouterInfo := {|
  CarbonRouterInstance := bool;
  CarbonRouterClient := unit;
  createCarbonLookasideRouter := fun _ flavor =>
    if String.eqb flavor "web" then Some true
    else if String.eqb flavor "noclient" then Some false
    else None;
  createClient := fun router _ =>
    if router : bool then Return tt else Throw "no client";
  client_send_get := fun _ _ (e : Env) => test_send_get e;
  client_send_lease_get := fun _ _ (e : Env) => test_send_lease_get e;
  client_send_set := fun _ _ (e : Env) => ({| set_result := ResultOther |}, e);
  client_send_lease_set := fun _ _ (e : Env) =>
    ({| lease_set_result := ResultOther |}, e)
|}.

#[local] Instance testExternals : Externals := {|
  hostid := 6;
  parseLeaseSettings := fun _ => Return defaultLeaseSettings;
  factory_create := fun j =>
    match j with DString s => Some s | _ => None end
|}.

(** The handle the test factory makes of the child property "A". *)
Definition childA : RouteHandlePtr := "A".

(** The route of the scenarios: prefix "p:", ttl 10, child "A". *)
Definition testRoute (keySplitSize : N) (ls : LeaseSettings)
  : CarbonLookasideRoute :=
  makeCarbonLookasideRoute childA true tt "p:" keySplitSize 10 tt ls.

Definition leasesOff : LeaseSettings := defaultLeaseSettings.

Definition leasesOn (initial maxWait retries : Z) : LeaseSettings :=
  {| enableLeases := true; initialWaitMs := initial; maxWaitMs := maxWait;
     numRetries := retries |}.

(** The cache still holding the scripts [gets] and [leaseGets]; the world
    around it after the events [t]; the world before any event. *)
Definition script (gets : list McGetReply) (leaseGets : list McLeaseGetReply)
  : TestEnv :=
  {| get_script := gets; lease_get_script := leaseGets |}.

Definition after (gets : list McGetReply) (leaseGets : list McLeaseGetReply)
    (t : list Event) : World :=
  {| env := script gets leaseGets; trace := t |}.

Definition start (gets : list McGetReply) (leaseGets : list McLeaseGetReply)
  : World :=
  after gets leaseGets [].

Definition leaseGetSent (key : string) (r : McLeaseGetReply) : Event :=
  EvSendLeaseGet {| lease_get_key := key |} r.

Definition cacheable (k : string) : TestRequest :=
  {| req_key := k; req_cacheable := true |}.

Definition uncacheable (k : string) : TestRequest :=
  {| req_key := k; req_cacheable := false |}.

Definition hit (buf : IOBuf) : McGetReply :=
  {| get_result := ResultHit; get_value := Some buf |}.

Definition miss : McGetReply :=
  {| get_result := ResultMiss; get_value := None |}.

Definition leaseHit (buf : IOBuf) : McLeaseGetReply :=
  {| lease_get_result := ResultHit; lease_get_value := Some buf;
     lease_get_leaseToken := 0 |}.

Definition leaseMiss (token : Z) : McLeaseGetReply :=
  {| lease_get_result := ResultMiss; lease_get_value := None;
     lease_get_leaseToken := token |}.

Definition childReply (k : string) : TestReply :=
  {| reply_result := ResultHit; reply_message := "A:" ++ k |}.

Definition testConfig (flavor : string) : dynamic :=
  DObject [("child", DString "A"); ("ttl", DInt 10); ("prefix", DString "p:");
           ("flavor", DString flavor)].


Definition leaseError : McLeaseGetReply :=
  {| lease_get_result := ResultOther; lease_get_value := None;
     lease_get_leaseToken := 0 |}.

Definition getSent (key : string) (r : McGetReply) : Event :=
  EvSendGet {| get_key := key |} r.

Definition setTask (key : string) (reply : TestReply) : Event :=
  EvAddTask (TaskSendSet {| set_key := key;
                            set_exptime := 10;
                            set_value := test_serialize reply |}).

Definition childRouted (req : TestRequest) : Event :=
  EvChildRoute childA req (childReply (req_key req)).

Definition bareConfig : dynamic :=
  DObject [("child", DString "A"); ("ttl", DInt 10)].

Definition bareRoute : CarbonLookasideRoute :=
  makeCarbonLookasideRoute childA true tt "" 1 10 tt defaultLeaseSettings.


End Scenario.

(** ** A cache that stores

    A second test double: the cache is a store that answers a GET with the
    value last SET under the key. *)

Module StoreScenario.

Local Open Scope string_scope.

Definition Store : Type := list (string * IOBuf).

Fixpoint stored (key : string) (s : Store) : option IOBuf :=
  match s with
  | [] => None
  | (k, v) :: rest => if String.eqb key k then Some v else stored key rest
  end.

#[local] Instance storeRouterInfo : RouterInfo := {|
  Request := Scenario.TestRequest;
  Reply := Scenario.TestReply;
  RouteHandlePtr := string;
  Env := Store;
  serialize := Scenario.test_serialize;
  deserialize := Scenario.test_deserialize;
  child_route := fun child req e =>
    ({| Scenario.reply_result := ResultHit;
        Scenario.reply_message := child ++ ":" ++ Scenario.req_key req |}, e)
|}.

#[local] Instance storeHelper : CarbonLookasideHelperIf := {|
  CarbonLookasideHelper := unit;
  helper_construct := fun _ => tt;
  helper_name := fun _ => "store";
  helper_cacheCandidate := fun _ (req : Request) e =>
    (Scenario.req_cacheable req, e);
  helper_buildKey := fun _ (req : Request) e => (Scenario.req_key req, e)
|}.

Definition store_get (req : McGetRequest) (e : Store) : McGetReply * Store :=
  match stored (get_key req) e with
  | Some v => ({| get_result := ResultHit; get_value := Some v |}, e)
  | None => ({| get_result := ResultMiss; get_value := None |}, e)
  end.

Definition store_lease_get (req : McLeaseGetRequest) (e : Store)
  : McLeaseGetReply * Store :=
  match stored (lease_get_key req) e with
  | Some v => ({| lease_get_result := ResultHit; lease_get_value := Some v;
                  lease_get_leaseToken := 0 |}, e)
  | None => ({| lease_get_result := ResultMiss; lease_get_value := None;
                lease_get_leaseToken := 0 |}, e)
  end.

#[local] Instance storeMemcache : MemcacheRouterInfo := {|
  CarbonRouterInstance := unit;
  CarbonRouterClient := unit;
  createCarbonLookasideRouter := fun _ _ => Some tt;
  createClient := fun _ _ => Return tt;
  client_send_get := fun _ req (e : Env) => store_get req e;
  client_send_lease_get := fun _ req (e : Env) => store_lease_get req e;
  client_send_set := fun _ req (e : Env) =>
    ({| set_result := ResultOther |}, (set_key req, set_value req) :: e);
  client_send_lease_set := fun _ req (e : Env) =>
    ({| lease_set_result := ResultOther |},
     (lease_set_key req, lease_set_value req) :: e)
|}.

#[local] Instance storeExternals : Externals := {|
  hostid := 6;
  parseLeaseSettings := fun _ => Return defaultLeaseSettings;
  factory_create := fun j =>
    match j with DString s => Some s | _ => None end
|}.

Definition storeChild : RouteHandlePtr := "A".

Definition storeRoute : CarbonLookasideRoute :=
  makeCarbonLookasideRoute storeChild tt tt "p:" 1 10 tt defaultLeaseSettings.

Definition emptyWorld : World := {| env := []; trace := [] |}.

End StoreScenario.


(** * Properties *)

Section Properties.

Context `{RI : RouterInfo} `{HI : !CarbonLookasideHelperIf}
        `{MI : !MemcacheRouterInfo} `{EI : !Externals}.

Variable this : CarbonLookasideRoute.

(** ** Running the primitive steps *)

Lemma send_lease_get_run (req : McLeaseGetRequest) (w : World) :
  send_lease_get this req w =
  (fst (client_send_lease_get (client_ this) req (env w)),
   {| env := snd (client_send_lease_get (client_ this) req (env w));
      trace := trace w
                 ++ [EvSendLeaseGet req
                       (fst (client_send_lease_get (client_ this) req (env w)))] |}).
Proof.
  unfold send_lease_get, bind, call, emit, ret.
  destruct (client_send_lease_get (client_ this) req (env w)); reflexivity.
Qed.

Lemma send_get_run (req : McGetRequest) (w : World) :
  send_get this req w =
  (fst (client_send_get (client_ this) req (env w)),
   {| env := snd (client_send_get (client_ this) req (env w));
      trace := trace w
                 ++ [EvSendGet req
                       (fst (client_send_get (client_ this) req (env w)))] |}).
Proof.
  unfold send_get, bind, call, emit, ret.
  destruct (client_send_get (client_ this) req (env w)); reflexivity.
Qed.

Lemma routeHandle_route_run (child : RouteHandlePtr) (req : Request) (w : World) :
  routeHandle_route child req w =
  (Return (fst (child_route child req (env w))),
   {| env := snd (child_route child req (env w));
      trace := trace w
                 ++ [EvChildRoute child req (fst (child_route child req (env w)))] |}).
Proof.
  unfold routeHandle_route, bind, call, emit, ret.
  destruct (child_route child req (env w)); reflexivity.
Qed.

(** ** The callbacks against the outcomes of the protocol *)

Lemma leaseGetCallback_classify (ret_ : option Reply) (leaseToken : Z)
    (r : McLeaseGetReply) :
  leaseGetCallback ret_ leaseToken r =
  match classifyLeaseGet r with
  | LeaseHit value =>
      ((try reply <- deserialize value ;; Return (Some reply))%exc,
       false, leaseToken)
  | LeaseHotMiss => (Return ret_, true, leaseToken)
  | LeaseMiss token => (Return ret_, false, token)
  | LeaseOther => (Return ret_, false, leaseToken)
  end.
Proof.
  unfold leaseGetCallback, classifyLeaseGet, kLeaseHotMissToken.
  destruct (lease_get_result r), (lease_get_value r); simpl;
    try reflexivity;
    destruct (lease_get_leaseToken r =? 1); reflexivity.
Qed.

Lemma lastReply_cons {A : Type} (x y : A) (l : list A) :
  lastReply (x :: y :: l) = lastReply (y :: l).
Proof. reflexivity. Qed.

Lemma lastReply_nonempty {A : Type} (x : A) (l : list A) :
  exists y, lastReply (x :: l) = Some y.
Proof.
  revert x; induction l as [|z l IH]; intros x.
  - exists x; reflexivity.
  - rewrite lastReply_cons. apply IH.
Qed.

(** ** The retry loop *)

(** The iterations after the first: each sleeps, then sends. *)
Lemma leaseGetLoop_retries (req : McLeaseGetRequest) :
  forall (remaining : nat) (attempt nextInterval leaseToken : Z) (w : World),
    0 < attempt ->
    exists replies : list McLeaseGetReply,
      let '(ret_, leaseToken', w') :=
        leaseGetLoop this remaining attempt nextInterval req None leaseToken w in
      (List.length replies <= remaining)%nat
      /\ trace w' = trace w ++
           retriesTrace req
             (backoffIntervals (maxWaitMs (leaseSettings_ this)) nextInterval
                (List.length replies))
             replies
      /\ Forall isHotMiss (removelast replies)
      /\ (ret_, leaseToken') = leaseGetResult leaseToken (lastReply replies)
      /\ ((List.length replies < remaining)%nat ->
          exists r, lastReply replies = Some r /\ ~ isHotMiss r).
Proof.
  induction remaining as [|n IH]; intros attempt nextInterval leaseToken w Hpos.
  - exists []. simpl. rewrite app_nil_r.
    repeat split; auto; lia.
  - assert (Hne : (attempt =? 0) = false) by (apply Z.eqb_neq; lia).
    cbn [leaseGetLoop]. rewrite Hne. cbn [negb].
    unfold bind at 1. unfold bind at 1. unfold sleep, emit, ret at 1.
    unfold bind at 1. rewrite send_lease_get_run.
    set (w1 := {| env := env w; trace := trace w ++ [EvSleep nextInterval] |}).
    set (r := fst (client_send_lease_get (client_ this) req (env w1))).
    set (w2 := {| env := snd (client_send_lease_get (client_ this) req (env w1));
                  trace := trace w1 ++ [EvSendLeaseGet req r] |}).
    rewrite leaseGetCallback_classify.
    destruct (classifyLeaseGet r) eqn:Hr.
    + exists [r].
      destruct (deserialize value) as [reply|what] eqn:Hd;
        cbn; rewrite Hr, Hd; unfold w1; cbn; rewrite <- app_assoc;
        (repeat split; auto; try lia);
        intros _; exists r; (split; [reflexivity|]);
        unfold isHotMiss; congruence.
    + cbn [negb].
      destruct (IH (attempt + 1)
                  (Z.min (mul_int32 nextInterval 2) (maxWaitMs (leaseSettings_ this)))
                  leaseToken w2 ltac:(lia)) as [replies IHr].
      destruct (leaseGetLoop this n (attempt + 1) _ req None leaseToken w2)
        as [[ret_ tok'] w'].
      destruct IHr as (Hlen & Htr & Hhot & Hres & Hearly).
      exists (r :: replies). cbn [List.length backoffIntervals].
      split; [lia|]. split.
      { rewrite Htr. unfold w2, w1; cbn. rewrite <- !app_assoc. reflexivity. }
      destruct replies as [|r' replies].
      * cbn. cbn in Hres. rewrite Hr. repeat split; auto.
        intros Hlt. destruct Hearly as (r0 & Hr0 & _); [cbn; lia|discriminate].
      * rewrite lastReply_cons. split.
        { cbn [removelast]. constructor; [exact Hr|exact Hhot]. }
        split; [exact Hres|].
        intros Hlt. apply Hearly. cbn in *. lia.
    + exists [r]. cbn. rewrite Hr. unfold w1; cbn. rewrite <- app_assoc.
      repeat split; auto; try lia.
      intros _. exists r. split; [reflexivity|]. unfold isHotMiss; congruence.
    + exists [r]. cbn. rewrite Hr. unfold w1; cbn. rewrite <- app_assoc.
      repeat split; auto; try lia.
      intros _. exists r. split; [reflexivity|]. unfold isHotMiss; congruence.
Qed.

(** The whole read: the first iteration sends at once. *)
Lemma carbonLookasideLeaseGet_run (key : string) (leaseToken0 : Z) (w : World) :
  exists replies : list McLeaseGetReply,
    let '(ret_, leaseToken, w') := carbonLookasideLeaseGet this key leaseToken0 w in
    (List.length replies <= maxAttempts (leaseSettings_ this))%nat
    /\ trace w' = trace w ++ leaseGetTrace (leaseSettings_ this) key replies
    /\ Forall isHotMiss (removelast replies)
    /\ (ret_, leaseToken) = leaseGetResult 0 (lastReply replies)
    /\ ((List.length replies < maxAttempts (leaseSettings_ this))%nat ->
        exists r, lastReply replies = Some r /\ ~ isHotMiss r).
Proof.
  unfold carbonLookasideLeaseGet, maxAttempts.
  set (req := {| lease_get_key := key |}).
  destruct (Z.to_nat (numRetries (leaseSettings_ this) + 1)) as [|n].
  - exists []. simpl. rewrite app_nil_r. repeat split; auto; lia.
  - cbn [leaseGetLoop]. cbn [Z.eqb negb].
    unfold bind at 1. unfold ret at 1. unfold bind at 1.
    rewrite send_lease_get_run.
    set (r := fst (client_send_lease_get (client_ this) req (env w))).
    set (w2 := {| env := snd (client_send_lease_get (client_ this) req (env w));
                  trace := trace w ++ [EvSendLeaseGet req r] |}).
    rewrite leaseGetCallback_classify.
    destruct (classifyLeaseGet r) eqn:Hr.
    + exists [r].
      destruct (deserialize value) as [reply|what] eqn:Hd;
        cbn; rewrite Hr, Hd;
        (repeat split; auto; try lia);
        intros _; exists r; (split; [reflexivity|]);
        unfold isHotMiss; congruence.
    + cbn [negb].
      destruct (leaseGetLoop_retries req n (0 + 1)
                  (initialWaitMs (leaseSettings_ this)) 0 w2 ltac:(lia))
        as [replies IHr].
      destruct (leaseGetLoop this n (0 + 1) _ req None 0 w2)
        as [[ret_ tok'] w'].
      destruct IHr as (Hlen & Htr & Hhot & Hres & Hearly).
      exists (r :: replies). cbn [List.length].
      split; [lia|]. split.
      { rewrite Htr. unfold w2; cbn. rewrite <- !app_assoc. reflexivity. }
      destruct replies as [|r' replies].
      * cbn. cbn in Hres. rewrite Hr. repeat split; auto.
        intros Hlt. destruct Hearly as (r0 & Hr0 & _); [cbn; lia|discriminate].
      * rewrite lastReply_cons. split.
        { cbn [removelast]. constructor; [exact Hr|exact Hhot]. }
        split; [exact Hres|].
        intros Hlt. apply Hearly. cbn in *. lia.
    + exists [r]. cbn. rewrite Hr.
      repeat split; auto; try lia.
      intros _. exists r. split; [reflexivity|]. unfold isHotMiss; congruence.
    + exists [r]. cbn. rewrite Hr.
      repeat split; auto; try lia.
      intros _. exists r. split; [reflexivity|]. unfold isHotMiss; congruence.
Qed.

(** ** What a read leaves in the trace *)

Lemma filter_none {A : Type} (f : A -> bool) (l : list A) :
  (forall x, In x l -> f x = false) -> filter f l = [].
Proof.
  induction l as [|x l IH]; intros Hall; [reflexivity|].
  cbn. rewrite (Hall x (or_introl eq_refl)).
  apply IH. intros y Hy. apply Hall. right; exact Hy.
Qed.

Lemma retriesTrace_events (req : McLeaseGetRequest) :
  forall (replies : list McLeaseGetReply) (intervals : list Z) (e : Event),
    In e (retriesTrace req intervals replies) ->
    (exists ms, e = EvSleep ms) \/ (exists r, In r replies /\ e = EvSendLeaseGet req r).
Proof.
  unfold retriesTrace.
  induction replies as [|r replies IH]; intros intervals e Hin.
  - destruct intervals; contradiction.
  - destruct intervals as [|ms intervals]; [contradiction|].
    cbn in Hin. destruct Hin as [<-|[<-|Hin]].
    + left; eauto.
    + right; exists r; split; [left|]; reflexivity.
    + destruct (IH intervals e Hin) as [Hs|(r0 & Hr0 & He)]; [left; exact Hs|].
      right; exists r0; split; [right|]; assumption.
Qed.

Lemma leaseGetTrace_events (ls : LeaseSettings) (key : string)
    (replies : list McLeaseGetReply) (e : Event) :
  In e (leaseGetTrace ls key replies) ->
  (exists ms, e = EvSleep ms)
  \/ (exists r, In r replies /\ e = EvSendLeaseGet {| lease_get_key := key |} r).
Proof.
  destruct replies as [|r replies]; [contradiction|].
  cbn [leaseGetTrace]. intros [<-|Hin].
  - right; exists r; split; [left|]; reflexivity.
  - destruct (retriesTrace_events _ _ _ _ Hin) as [Hs|(r0 & Hr0 & He)];
      [left; exact Hs|].
    right; exists r0; split; [right|]; assumption.
Qed.

Lemma retriesTrace_lease_gets (req : McLeaseGetRequest) (maxWait : Z) :
  forall (replies : list McLeaseGetReply) (wait : Z),
    List.length
      (filter isLeaseGet
         (retriesTrace req (backoffIntervals maxWait wait (List.length replies))
            replies))
    = List.length replies.
Proof.
  unfold retriesTrace.
  induction replies as [|r replies IH]; intros wait; [reflexivity|].
  cbn. f_equal. apply IH.
Qed.

Lemma retriesTrace_sleeps (req : McLeaseGetRequest) (maxWait : Z) :
  forall (replies : list McLeaseGetReply) (wait : Z),
    filter (fun e => negb (isLeaseGet e))
      (retriesTrace req (backoffIntervals maxWait wait (List.length replies))
         replies)
    = map EvSleep (backoffIntervals maxWait wait (List.length replies)).
Proof.
  unfold retriesTrace.
  induction replies as [|r replies IH]; intros wait; [reflexivity|].
  cbn. f_equal. apply IH.
Qed.

(** Every sleep after the first is capped by [maxWaitMs], and so is the
    first when [initialWaitMs <= maxWaitMs]. *)
Lemma backoffIntervals_capped (maxWait : Z) (n : nat) :
  forall wait, wait <= maxWait ->
    Forall (fun ms => ms <= maxWait) (backoffIntervals maxWait wait n).
Proof.
  induction n as [|n IH]; intros wait Hle; cbn; constructor; [exact Hle|].
  apply IH, Z.le_min_r.
Qed.

(** In the ordinary range of waits, the 32-bit product is the double. *)
Lemma mul_int32_double (wait : Z) :
  - 2 ^ 30 <= wait < 2 ^ 30 -> mul_int32 wait 2 = wait * 2.
Proof.
  intros Hrange. unfold mul_int32, wrap_int32.
  rewrite Z.mod_small; lia.
Qed.

(** Either read is read-only under [key]; a reply it returns was
    deserialized from a value, and the plain read leaves the lease token
    as it was. *)
Lemma carbonLookasideGet_reads (key : string) (leaseToken0 : Z) (w : World) :
  exists reads : list Event,
    let '(ret_, leaseToken, w') := carbonLookasideGet this key leaseToken0 w in
    trace w' = trace w ++ reads
    /\ readOnly key reads
    /\ (forall reply, ret_ = Return (Some reply) ->
        exists value, deserialize value = Return reply)
    /\ (enableLeases (leaseSettings_ this) = false -> leaseToken = leaseToken0).
Proof.
  unfold carbonLookasideGet, readOnly.
  destruct (enableLeases (leaseSettings_ this)) eqn:Hleases.
  - destruct (carbonLookasideLeaseGet_run key leaseToken0 w) as [replies Hrun].
    destruct (carbonLookasideLeaseGet this key leaseToken0 w) as [[ret_ tok] w'].
    destruct Hrun as (_ & Htr & _ & Hres & _).
    exists (leaseGetTrace (leaseSettings_ this) key replies).
    split; [exact Htr|]. split; [|split; [|discriminate]].
    + intros e He.
      destruct (leaseGetTrace_events _ _ _ _ He) as [[ms ->]|(r & _ & ->)];
        cbn; repeat split; auto; congruence.
    + intros reply ->. unfold leaseGetResult in Hres.
      destruct (lastReply replies) as [r|]; [|discriminate].
      destruct (classifyLeaseGet r) as [value| | |]; try discriminate.
      exists value. destruct (deserialize value); cbn in Hres; congruence.
  - unfold carbonLookasideGet_plain, bind at 1. unfold bind at 1.
    rewrite send_get_run. unfold ret.
    set (r := fst (client_send_get (client_ this) {| get_key := key |} (env w))).
    exists [EvSendGet {| get_key := key |} r]. cbn [trace].
    split; [reflexivity|]. split; [|split; [|reflexivity]].
    + intros e [<-|[]]. cbn; repeat split; auto; congruence.
    + unfold getCallback. intros reply Hret.
      destruct (isHitResult (get_result r) && hasValue (get_value r));
        [|discriminate].
      destruct (get_value r) as [value|]; [|discriminate].
      exists value. destruct (deserialize value); cbn in Hret; congruence.
Qed.

Lemma childRouteCalls_app (t1 t2 : list Event) :
  childRouteCalls (t1 ++ t2) = (childRouteCalls t1 + childRouteCalls t2)%nat.
Proof. unfold childRouteCalls. rewrite filter_app, length_app. reflexivity. Qed.

Lemma readOnly_childRouteCalls (key : string) (reads : list Event) :
  readOnly key reads -> childRouteCalls reads = 0%nat.
Proof.
  intros Hall. unfold childRouteCalls. rewrite filter_none; [reflexivity|].
  intros e He. apply (Hall e He).
Qed.

(** ** One call of [route], step by step *)

Lemma carbonLookasideSet_run (key : string) (reply : Reply) (leaseToken : Z)
    (w : World) :
  carbonLookasideSet this key reply leaseToken w =
  (tt, {| env := env w;
          trace := trace w ++ [EvAddTask (expectedWrite this key reply leaseToken)] |}).
Proof.
  unfold carbonLookasideSet, expectedWrite, carbonLookasideLeaseSet,
    carbonLookasideSet_plain, addTask, emit, serializeOffFiber.
  destruct (enableLeases (leaseSettings_ this) && negb (leaseToken =? 0));
    reflexivity.
Qed.

Lemma route_run (req : Request) (w : World) :
  route this req w =
  let (cacheCandidate, e1) :=
    helper_cacheCandidate (carbonLookasideHelper_ this) req (env w) in
  if cacheCandidate then
    let (k, e2) := helper_buildKey (carbonLookasideHelper_ this) req e1 in
    let key := (keyPrefix_ this ++ k ++ keySuffix_ this)%string in
    let '(optReply, leaseToken, w3) :=
      carbonLookasideGet this key 0 {| env := e2; trace := trace w |} in
    match optReply with
    | Throw what => (Throw what, w3)
    | Return (Some reply) => (Return reply, w3)
    | Return None =>
        let (routed, w4) := routeHandle_route (child_ this) req w3 in
        match routed with
        | Throw what => (Throw what, w4)
        | Return reply =>
            (Return reply,
             {| env := env w4;
                trace := trace w4
                           ++ [EvAddTask (expectedWrite this key reply leaseToken)] |})
        end
    end
  else routeHandle_route (child_ this) req {| env := e1; trace := trace w |}.
Proof.
  unfold route. unfold bind at 1. unfold call at 1.
  destruct (helper_cacheCandidate (carbonLookasideHelper_ this) req (env w))
    as [cacheCandidate e1].
  destruct cacheCandidate.
  - unfold bind at 1. unfold bind at 1. unfold buildKey, bind at 1, call at 1.
    cbn [env trace].
    destruct (helper_buildKey (carbonLookasideHelper_ this) req e1) as [k e2].
    unfold ret at 1. unfold bind at 1.
    destruct (carbonLookasideGet this _ 0 {| env := e2; trace := trace w |})
      as [[optReply leaseToken] w3].
    unfold ret at 1.
    destruct optReply as [[reply|]|what]; [reflexivity| |reflexivity].
    unfold bind at 1.
    destruct (routeHandle_route (child_ this) req w3) as [[reply|what] w4];
      [|reflexivity].
    unfold bind at 1. rewrite carbonLookasideSet_run. reflexivity.
  - unfold bind at 1. unfold ret at 1. unfold bind at 1.
    destruct (routeHandle_route (child_ this) req _) as [[reply|what] w4];
      unfold bind, ret; reflexivity.
Qed.

(** ** The orchestrator *)

(** C1.  A candidate request whose cache read returns a reply: [route]
    returns that reply, deserialized from the cached value, as soon as the
    read is over, and the child is not routed to. *)
Theorem route_cache_hit (req : Request) (w : World) (e1 e2 : Env) (k : string)
    (reply : Reply) (leaseToken : Z) (w3 : World) :
  helper_cacheCandidate (carbonLookasideHelper_ this) req (env w) = (true, e1) ->
  helper_buildKey (carbonLookasideHelper_ this) req e1 = (k, e2) ->
  carbonLookasideGet this (keyPrefix_ this ++ k ++ keySuffix_ this) 0
    {| env := e2; trace := trace w |} = (Return (Some reply), leaseToken, w3) ->
  route this req w = (Return reply, w3)
  /\ childRouteCalls (trace w3) = childRouteCalls (trace w)
  /\ exists value, deserialize value = Return reply.
Proof.
  intros Hcand Hkey Hget.
  pose proof (carbonLookasideGet_reads
                (keyPrefix_ this ++ k ++ keySuffix_ this) 0
                {| env := e2; trace := trace w |}) as [reads Hreads].
  rewrite Hget in Hreads. cbn [trace] in Hreads.
  destruct Hreads as (Htr & Hro & Hval & _).
  split; [|split].
  - rewrite route_run, Hcand, Hkey. cbn zeta. rewrite Hget. reflexivity.
  - rewrite Htr, childRouteCalls_app, (readOnly_childRouteCalls _ _ Hro). lia.
  - apply Hval. reflexivity.
Qed.

(** C2.  A candidate request whose cache read returns no reply: [route]
    routes to the child exactly once, with the request itself, and returns
    the reply the child gave. *)
Theorem route_cache_miss (req : Request) (w : World) (e1 e2 : Env) (k : string)
    (leaseToken : Z) (w3 : World) :
  helper_cacheCandidate (carbonLookasideHelper_ this) req (env w) = (true, e1) ->
  helper_buildKey (carbonLookasideHelper_ this) req e1 = (k, e2) ->
  carbonLookasideGet this (keyPrefix_ this ++ k ++ keySuffix_ this) 0
    {| env := e2; trace := trace w |} = (Return None, leaseToken, w3) ->
  let childReply := fst (child_route (child_ this) req (env w3)) in
  fst (route this req w) = Return childReply
  /\ filter isChildRoute (trace (snd (route this req w)))
     = filter isChildRoute (trace w) ++ [EvChildRoute (child_ this) req childReply]
  /\ childRouteCalls (trace (snd (route this req w)))
     = (childRouteCalls (trace w) + 1)%nat.
Proof.
  intros Hcand Hkey Hget childReply.
  pose proof (carbonLookasideGet_reads
                (keyPrefix_ this ++ k ++ keySuffix_ this) 0
                {| env := e2; trace := trace w |}) as [reads Hreads].
  rewrite Hget in Hreads. cbn [trace] in Hreads.
  destruct Hreads as (Htr & Hro & _ & _).
  assert (Hnone : filter isChildRoute reads = []).
  { apply filter_none. intros e He. apply (Hro e He). }
  rewrite route_run, Hcand, Hkey. cbn zeta. rewrite Hget.
  rewrite routeHandle_route_run. cbn [fst snd trace env].
  fold childReply.
  assert (Hfilter :
    filter isChildRoute
      ((trace w3 ++ [EvChildRoute (child_ this) req childReply])
         ++ [EvAddTask
               (expectedWrite this (keyPrefix_ this ++ k ++ keySuffix_ this)
                  childReply leaseToken)])
    = filter isChildRoute (trace w)
        ++ [EvChildRoute (child_ this) req childReply]).
  { rewrite Htr, !filter_app, Hnone. cbn. rewrite !app_nil_r. reflexivity. }
  split; [reflexivity|]. split; [exact Hfilter|].
  unfold childRouteCalls. rewrite Hfilter, length_app. reflexivity.
Qed.

(** C7.  A request the helper does not accept: [route] routes to the child
    once and returns its reply; the only event it adds to the trace is that
    call, so no GET, LEASE_GET, SET or LEASE_SET is issued. *)
Theorem route_not_candidate (req : Request) (w : World) (e1 : Env) :
  helper_cacheCandidate (carbonLookasideHelper_ this) req (env w) = (false, e1) ->
  let childReply := fst (child_route (child_ this) req e1) in
  route this req w =
    (Return childReply,
     {| env := snd (child_route (child_ this) req e1);
        trace := trace w ++ [EvChildRoute (child_ this) req childReply] |})
  /\ cacheOperations (trace (snd (route this req w))) = cacheOperations (trace w)
  /\ childRouteCalls (trace (snd (route this req w)))
     = (childRouteCalls (trace w) + 1)%nat.
Proof.
  intros Hcand childReply.
  assert (Hrun : route this req w =
    (Return childReply,
     {| env := snd (child_route (child_ this) req e1);
        trace := trace w ++ [EvChildRoute (child_ this) req childReply] |})).
  { rewrite route_run, Hcand, routeHandle_route_run. reflexivity. }
  rewrite Hrun. cbn [snd trace].
  split; [reflexivity|]. split.
  - unfold cacheOperations. rewrite filter_app. cbn. apply app_nil_r.
  - rewrite childRouteCalls_app. reflexivity.
Qed.

(** ** Reading the replies back from a lease read *)

Lemma backoffIntervals_length (maxWait : Z) (n : nat) :
  forall wait, List.length (backoffIntervals maxWait wait n) = n.
Proof. induction n as [|n IH]; intros wait; cbn; [|rewrite IH]; reflexivity. Qed.

Lemma leaseGetReplies_retries (req : McLeaseGetRequest) :
  forall (replies : list McLeaseGetReply) (intervals : list Z),
    List.length intervals = List.length replies ->
    leaseGetReplies (retriesTrace req intervals replies) = replies.
Proof.
  unfold retriesTrace.
  induction replies as [|r replies IH]; intros [|ms intervals] Hlen;
    try discriminate; [reflexivity|].
  cbn. f_equal. apply IH. cbn in Hlen. lia.
Qed.

Lemma lastReply_retries (req : McLeaseGetRequest) :
  forall (replies : list McLeaseGetReply) (intervals : list Z) (first : Event),
    List.length intervals = List.length replies ->
    lastReply (first :: retriesTrace req intervals replies)
    = match lastReply replies with
      | Some r => Some (EvSendLeaseGet req r)
      | None => Some first
      end.
Proof.
  unfold retriesTrace.
  induction replies as [|r replies IH]; intros [|ms intervals] first Hlen;
    try discriminate; [reflexivity|].
  cbn [combine flat_map app]. rewrite !lastReply_cons.
  rewrite IH by (cbn in Hlen; lia).
  destruct replies as [|r' replies]; [reflexivity|].
  rewrite lastReply_cons.
  destruct (lastReply_nonempty r' replies) as [y ->]. reflexivity.
Qed.

Lemma leaseGetReplies_leaseGetTrace (ls : LeaseSettings) (key : string)
    (replies : list McLeaseGetReply) :
  leaseGetReplies (leaseGetTrace ls key replies) = replies.
Proof.
  destruct replies as [|r replies]; [reflexivity|].
  cbn. f_equal. apply leaseGetReplies_retries, backoffIntervals_length.
Qed.

Lemma lastReply_leaseGetTrace (ls : LeaseSettings) (key : string)
    (replies : list McLeaseGetReply) (r : McLeaseGetReply) :
  lastReply replies = Some r ->
  lastReply (leaseGetTrace ls key replies)
  = Some (EvSendLeaseGet {| lease_get_key := key |} r).
Proof.
  destruct replies as [|r0 replies]; [discriminate|].
  intros Hlast. cbn [leaseGetTrace].
  rewrite lastReply_retries by apply backoffIntervals_length.
  destruct replies as [|r1 replies].
  - cbn in Hlast. injection Hlast as ->. reflexivity.
  - rewrite lastReply_cons in Hlast. rewrite Hlast. reflexivity.
Qed.

(** Only the last reply of a read can be anything but a hot miss. *)
Lemma not_hot_miss_is_last (replies : list McLeaseGetReply) (r : McLeaseGetReply) :
  Forall isHotMiss (removelast replies) ->
  In r replies -> ~ isHotMiss r -> lastReply replies = Some r.
Proof.
  induction replies as [|r0 replies IH]; intros Hhot Hin Hnot; [contradiction|].
  destruct replies as [|r1 replies].
  - destruct Hin as [->|[]]. reflexivity.
  - rewrite lastReply_cons. cbn [removelast] in Hhot.
    inversion Hhot as [|? ? Hr0 Hrest]; subst.
    destruct Hin as [->|Hin]; [contradiction|].
    apply IH; assumption.
Qed.

Lemma all_hot_miss_last (replies : list McLeaseGetReply) (r : McLeaseGetReply) :
  Forall isHotMiss replies -> lastReply replies = Some r -> isHotMiss r.
Proof.
  induction replies as [|r0 replies IH]; intros Hhot Hlast; [discriminate|].
  inversion Hhot as [|? ? Hr0 Hrest]; subst.
  destruct replies as [|r1 replies].
  - cbn in Hlast. congruence.
  - rewrite lastReply_cons in Hlast. apply IH; assumption.
Qed.

(** The lease read of one [route] call, seen from its trace. *)
Lemma lease_read_of_trace (key : string) (leaseToken0 : Z) (w : World)
    (optReply : Exc (option Reply)) (leaseToken : Z) (w3 : World)
    (reads : list Event) :
  enableLeases (leaseSettings_ this) = true ->
  carbonLookasideGet this key leaseToken0 w = (optReply, leaseToken, w3) ->
  trace w3 = trace w ++ reads ->
  reads = leaseGetTrace (leaseSettings_ this) key (leaseGetReplies reads)
  /\ (List.length (leaseGetReplies reads) <= maxAttempts (leaseSettings_ this))%nat
  /\ Forall isHotMiss (removelast (leaseGetReplies reads))
  /\ (optReply, leaseToken) = leaseGetResult 0 (lastReply (leaseGetReplies reads))
  /\ ((List.length (leaseGetReplies reads) < maxAttempts (leaseSettings_ this))%nat ->
      exists r, lastReply (leaseGetReplies reads) = Some r /\ ~ isHotMiss r).
Proof.
  intros Hleases Hget Htrace.
  unfold carbonLookasideGet in Hget. rewrite Hleases in Hget.
  destruct (carbonLookasideLeaseGet_run key leaseToken0 w) as [replies Hrun].
  rewrite Hget in Hrun. destruct Hrun as (Hlen & Htr & Hhot & Hres & Hearly).
  rewrite Htrace in Htr. apply app_inv_head in Htr. subst reads.
  rewrite leaseGetReplies_leaseGetTrace. auto.
Qed.

(** ** The replies are the cache's answers *)

Lemma leaseGetReplies_app (t1 t2 : list Event) :
  leaseGetReplies (t1 ++ t2) = leaseGetReplies t1 ++ leaseGetReplies t2.
Proof.
  induction t1 as [|e t1 IH]; [reflexivity|].
  destruct e; cbn; rewrite ?IH; reflexivity.
Qed.

(** Whatever the loop starts from, the replies it logs are the answers of
    the client to as many LEASE_GETs in a row, and it leaves the environment
    they leave: it calls nothing else. *)
Lemma leaseGetLoop_answers (req : McLeaseGetRequest) :
  forall (remaining : nat) (attempt nextInterval : Z) (ret0 : option Reply)
         (leaseToken : Z) (w : World),
    exists replies : list McLeaseGetReply,
      let '(_, _, w') :=
        leaseGetLoop this remaining attempt nextInterval req ret0 leaseToken w in
      leaseGetReplies (trace w') = leaseGetReplies (trace w) ++ replies
      /\ leaseGetAnswers (client_ this) req (List.length replies) (env w)
         = (replies, env w').
Proof.
  induction remaining as [|n IH];
    intros attempt nextInterval ret0 leaseToken w.
  - exists []. cbn. rewrite app_nil_r. auto.
  - cbn [leaseGetLoop]. unfold bind at 1.
    set (first := if negb (attempt =? 0) then _ else _).
    assert (Hfirst : exists nextInterval' w1,
               first w = (nextInterval', w1) /\ env w1 = env w
               /\ leaseGetReplies (trace w1) = leaseGetReplies (trace w)).
    { unfold first. destruct (negb (attempt =? 0)).
      - unfold bind, sleep, emit, ret. do 2 eexists.
        split; [reflexivity|]. cbn [env trace].
        rewrite leaseGetReplies_app, app_nil_r. auto.
      - unfold ret. do 2 eexists. auto. }
    destruct Hfirst as (nextInterval' & w1 & -> & Henv & Htr).
    unfold bind at 1. rewrite send_lease_get_run. rewrite Henv.
    destruct (client_send_lease_get (client_ this) req (env w)) as [r e'] eqn:Hsend.
    cbn [fst snd].
    set (w2 := {| env := e'; trace := trace w1 ++ [EvSendLeaseGet req r] |}).
    assert (Hone : leaseGetReplies (trace w2) = leaseGetReplies (trace w) ++ [r]
                   /\ leaseGetAnswers (client_ this) req 1 (env w) = ([r], env w2)).
    { unfold w2; cbn [trace env leaseGetAnswers].
      rewrite leaseGetReplies_app, Htr, Hsend. auto. }
    destruct (leaseGetCallback ret0 leaseToken r) as [[called retry] leaseToken'].
    destruct called as [ret'|what]; [|exists [r]; exact Hone].
    destruct retry; cbn [negb]; [|exists [r]; exact Hone].
    destruct (IH (attempt + 1) nextInterval' ret' leaseToken' w2)
      as (replies & IHr).
    destruct (leaseGetLoop this n (attempt + 1) nextInterval' req ret'
                leaseToken' w2) as [[ret_ tok] w'].
    destruct IHr as (Hreplies & Hanswers).
    exists (r :: replies). split.
    + rewrite Hreplies, (proj1 Hone), <- app_assoc. reflexivity.
    + cbn [List.length leaseGetAnswers]. rewrite Hsend.
      unfold w2 in Hanswers at 1. cbn [env] in Hanswers.
      rewrite Hanswers. reflexivity.
Qed.

Lemma carbonLookasideLeaseGet_answers (key : string) (leaseToken0 : Z)
    (w : World) (replies : list McLeaseGetReply)
    (res : Exc (option Reply) * Z) (w' : World) :
  carbonLookasideLeaseGet this key leaseToken0 w = (res, w') ->
  trace w' = trace w ++ leaseGetTrace (leaseSettings_ this) key replies ->
  leaseGetAnswers (client_ this) {| lease_get_key := key |}
    (List.length replies) (env w) = (replies, env w').
Proof.
  intros Hget Htrace.
  destruct (leaseGetLoop_answers {| lease_get_key := key |}
              (Z.to_nat (numRetries (leaseSettings_ this) + 1)) 0
              (initialWaitMs (leaseSettings_ this)) None 0 w)
    as (answers & Hloop).
  unfold carbonLookasideLeaseGet in Hget. rewrite Hget in Hloop.
  destruct res as [ret_ tok]. destruct Hloop as (Hreplies & Hanswers).
  rewrite Htrace, leaseGetReplies_app, leaseGetReplies_leaseGetTrace in Hreplies.
  apply app_inv_head in Hreplies. subst answers. exact Hanswers.
Qed.

(** ** The lease read *)

(** C3.  A lease read issues its LEASE_GETs under the key, one after the
    other, and the replies are what the cache answered to them; it issues at
    most [numRetries + 1] of them, and none only when [numRetries + 1] is
    not positive.  The first is sent at once, every later one right after a
    sleep, the sleeps lasting [initialWaitMs] and then
    [min(wait * 2, maxWaitMs)] of the one before.  Every reply but the last
    is a miss with token 1; such a hot miss is the last reply only when the
    attempts are used up, and the read then has no reply and token 0.  A miss
    with another token ends the read with that token and no reply; a hit
    with a value ends it with token 0 and the reply deserialized from the
    value, or with the exception [deserialize] threw. *)
Theorem lease_read_protocol (key : string) (leaseToken0 : Z) (w : World) :
  exists replies : list McLeaseGetReply,
    let '(ret_, leaseToken, w') := carbonLookasideLeaseGet this key leaseToken0 w in
    let ls := leaseSettings_ this in
    trace w' = trace w ++ leaseGetTrace ls key replies
    /\ leaseGetAnswers (client_ this) {| lease_get_key := key |}
         (List.length replies) (env w) = (replies, env w')
    /\ List.length (filter isLeaseGet (leaseGetTrace ls key replies))
       = List.length replies
    /\ (List.length replies <= Z.to_nat (numRetries ls + 1))%nat
    /\ filter (fun e => negb (isLeaseGet e)) (leaseGetTrace ls key replies)
       = map EvSleep
           (backoffIntervals (maxWaitMs ls) (initialWaitMs ls)
              (List.length replies - 1))
    /\ (forall r, In r (removelast replies) -> isHotMiss r)
    /\ match lastReply replies with
       | None =>
           Z.to_nat (numRetries ls + 1) = 0%nat
           /\ ret_ = Return None /\ leaseToken = 0
       | Some r =>
           match classifyLeaseGet r with
           | LeaseHit value =>
               ret_ = (try reply <- deserialize value ;; Return (Some reply))%exc
               /\ leaseToken = 0
           | LeaseHotMiss =>
               List.length replies = Z.to_nat (numRetries ls + 1)
               /\ ret_ = Return None /\ leaseToken = 0
           | LeaseMiss token => ret_ = Return None /\ leaseToken = token
           | LeaseOther => ret_ = Return None /\ leaseToken = 0
           end
       end.
Proof.
  destruct (carbonLookasideLeaseGet_run key leaseToken0 w) as [replies Hrun].
  exists replies.
  destruct (carbonLookasideLeaseGet this key leaseToken0 w)
    as [[ret_ tok] w'] eqn:Hget.
  destruct Hrun as (Hlen & Htr & Hhot & Hres & Hearly).
  cbn zeta. unfold maxAttempts in *.
  split; [exact Htr|].
  split; [exact (carbonLookasideLeaseGet_answers _ _ _ _ _ _ Hget Htr)|].
  split; [|split; [exact Hlen|split; [|split]]].
  - destruct replies as [|r replies]; [reflexivity|].
    cbn. f_equal. apply retriesTrace_lease_gets.
  - destruct replies as [|r replies]; [reflexivity|].
    cbn [leaseGetTrace filter isLeaseGet negb List.length].
    replace (S (List.length replies) - 1)%nat with (List.length replies) by lia.
    apply retriesTrace_sleeps.
  - intros r Hr. exact (proj1 (Forall_forall _ _) Hhot r Hr).
  - unfold leaseGetResult in Hres.
    destruct (lastReply replies) as [r|] eqn:Hlast.
    + destruct (classifyLeaseGet r) eqn:Hr; injection Hres as -> ->; auto.
      split; auto.
      destruct (Nat.eq_dec (List.length replies)
                  (Z.to_nat (numRetries (leaseSettings_ this) + 1)))
        as [Heq|Hneq]; [exact Heq|].
      destruct Hearly as (r0 & Hr0 & Hnot); [lia|].
      exfalso. apply Hnot. unfold isHotMiss. congruence.
    + injection Hres as -> ->. split; [|auto].
      destruct (Z.to_nat (numRetries (leaseSettings_ this) + 1)) as [|n] eqn:Hn;
        [reflexivity|].
      destruct replies as [|r replies].
      * destruct Hearly as (r0 & Hr0 & _); [cbn; lia|discriminate].
      * destruct (lastReply_nonempty r replies) as [y Hy]. congruence.
Qed.

(** ** The write *)


(** ** Leases and the write that follows *)

Lemma route_miss_run (req : Request) (w : World) (e1 e2 : Env) (k : string)
    (leaseToken : Z) (w3 : World) :
  helper_cacheCandidate (carbonLookasideHelper_ this) req (env w) = (true, e1) ->
  helper_buildKey (carbonLookasideHelper_ this) req e1 = (k, e2) ->
  carbonLookasideGet this (keyPrefix_ this ++ k ++ keySuffix_ this) 0
    {| env := e2; trace := trace w |} = (Return None, leaseToken, w3) ->
  route this req w =
    (Return (fst (child_route (child_ this) req (env w3))),
     {| env := snd (child_route (child_ this) req (env w3));
        trace := trace w3 ++
          [EvChildRoute (child_ this) req (fst (child_route (child_ this) req (env w3)));
           EvAddTask
             (expectedWrite this (keyPrefix_ this ++ k ++ keySuffix_ this)
                (fst (child_route (child_ this) req (env w3))) leaseToken)] |}).
Proof.
  intros Hcand Hkey Hget.
  rewrite route_run, Hcand, Hkey. cbn zeta. rewrite Hget.
  rewrite routeHandle_route_run. cbn [env trace].
  rewrite <- app_assoc. reflexivity.
Qed.

Lemma expectedWrite_no_token (key : string) (reply : Reply) :
  expectedWrite this key reply 0 =
  TaskSendSet {| set_key := key;
                 set_exptime := ttl_ this;
                 set_value := serialize reply |}.
Proof. unfold expectedWrite. rewrite andb_false_r. reflexivity. Qed.

(** C4, as the code has it.  When every LEASE_GET of the read was answered
    by the hot-miss sentinel, the read used all its attempts and returns no
    reply and token 0; [route] then routes to the child and dispatches a
    plain SET of the child's reply: no LEASE_SET, since no token is held. *)
Theorem route_hot_miss_exhausted (req : Request) (w : World) (e1 e2 : Env)
    (k : string) (optReply : Exc (option Reply)) (leaseToken : Z) (w3 : World)
    (reads : list Event) :
  enableLeases (leaseSettings_ this) = true ->
  helper_cacheCandidate (carbonLookasideHelper_ this) req (env w) = (true, e1) ->
  helper_buildKey (carbonLookasideHelper_ this) req e1 = (k, e2) ->
  carbonLookasideGet this (keyPrefix_ this ++ k ++ keySuffix_ this) 0
    {| env := e2; trace := trace w |} = (optReply, leaseToken, w3) ->
  trace w3 = trace w ++ reads ->
  Forall isHotMiss (leaseGetReplies reads) ->
  let key := (keyPrefix_ this ++ k ++ keySuffix_ this)%string in
  let childReply := fst (child_route (child_ this) req (env w3)) in
  List.length (leaseGetReplies reads) = Z.to_nat (numRetries (leaseSettings_ this) + 1)
  /\ optReply = Return None /\ leaseToken = 0
  /\ route this req w =
       (Return childReply,
        {| env := snd (child_route (child_ this) req (env w3));
           trace := trace w3 ++
             [EvChildRoute (child_ this) req childReply;
              EvAddTask (TaskSendSet {| set_key := key;
                                        set_exptime := ttl_ this;
                                        set_value := serialize childReply |})] |}).
Proof.
  intros Hleases Hcand Hkey Hget Htrace Hall key childReply.
  destruct (lease_read_of_trace _ _ _ _ _ _ _ Hleases Hget Htrace)
    as (_ & Hlen & _ & Hres & Hearly).
  unfold maxAttempts in *.
  assert (Hend : optReply = Return None /\ leaseToken = 0).
  { unfold leaseGetResult in Hres.
    destruct (lastReply (leaseGetReplies reads)) as [r|] eqn:Hlast.
    - pose proof (all_hot_miss_last _ _ Hall Hlast) as Hr.
      unfold isHotMiss in Hr. rewrite Hr in Hres.
      injection Hres as -> ->. auto.
    - injection Hres as -> ->. auto. }
  destruct Hend as [-> ->].
  split; [|split; [reflexivity|split; [reflexivity|]]].
  - destruct (Nat.eq_dec (List.length (leaseGetReplies reads))
                (Z.to_nat (numRetries (leaseSettings_ this) + 1)))
      as [Heq|Hneq]; [exact Heq|].
    destruct Hearly as (r & Hlast & Hnot); [lia|].
    exfalso. apply Hnot. exact (all_hot_miss_last _ _ Hall Hlast).
  - rewrite (route_miss_run _ _ _ _ _ _ _ Hcand Hkey Hget).
    rewrite expectedWrite_no_token. reflexivity.
Qed.

(** C10.  A LEASE_GET of the read answered by a miss with lease token 0 is
    the last event of the read (no sleep or LEASE_GET follows it); the read
    returns no reply and token 0, and the write [route] dispatches after
    the child replied is a plain SET. *)
Theorem route_lease_miss_token_zero (req : Request) (w : World) (e1 e2 : Env)
    (k : string) (optReply : Exc (option Reply)) (leaseToken : Z) (w3 : World)
    (reads : list Event) (r : McLeaseGetReply) :
  enableLeases (leaseSettings_ this) = true ->
  helper_cacheCandidate (carbonLookasideHelper_ this) req (env w) = (true, e1) ->
  helper_buildKey (carbonLookasideHelper_ this) req e1 = (k, e2) ->
  carbonLookasideGet this (keyPrefix_ this ++ k ++ keySuffix_ this) 0
    {| env := e2; trace := trace w |} = (optReply, leaseToken, w3) ->
  trace w3 = trace w ++ reads ->
  In r (leaseGetReplies reads) ->
  lease_get_result r = ResultMiss ->
  lease_get_leaseToken r = 0 ->
  let key := (keyPrefix_ this ++ k ++ keySuffix_ this)%string in
  let childReply := fst (child_route (child_ this) req (env w3)) in
  lastReply reads = Some (EvSendLeaseGet {| lease_get_key := key |} r)
  /\ optReply = Return None /\ leaseToken = 0
  /\ route this req w =
       (Return childReply,
        {| env := snd (child_route (child_ this) req (env w3));
           trace := trace w3 ++
             [EvChildRoute (child_ this) req childReply;
              EvAddTask (TaskSendSet {| set_key := key;
                                        set_exptime := ttl_ this;
                                        set_value := serialize childReply |})] |}).
Proof.
  intros Hleases Hcand Hkey Hget Htrace Hin Hmiss Htoken key childReply.
  destruct (lease_read_of_trace _ _ _ _ _ _ _ Hleases Hget Htrace)
    as (Hreads & _ & Hhot & Hres & _).
  assert (Hclass : classifyLeaseGet r = LeaseMiss 0).
  { unfold classifyLeaseGet. rewrite Hmiss, Htoken. reflexivity. }
  assert (Hlast : lastReply (leaseGetReplies reads) = Some r).
  { apply not_hot_miss_is_last; [exact Hhot|exact Hin|].
    unfold isHotMiss. congruence. }
  unfold leaseGetResult in Hres. rewrite Hlast, Hclass in Hres.
  injection Hres as -> ->.
  split; [|split; [reflexivity|split; [reflexivity|]]].
  - rewrite Hreads. apply lastReply_leaseGetTrace. exact Hlast.
  - rewrite (route_miss_run _ _ _ _ _ _ _ Hcand Hkey Hget).
    rewrite expectedWrite_no_token. reflexivity.
Qed.

(** ** A hit whose value does not decode *)

(** A hit carrying a value is the last event of its read, and the read ends
    with what [deserialize] makes of the value: the reply, or the
    exception. *)
Lemma read_of_hit (key : string) (leaseToken0 : Z) (w : World)
    (got : Exc (option Reply)) (leaseToken : Z) (w3 : World)
    (reads : list Event) (e : Event) (value : IOBuf) :
  carbonLookasideGet this key leaseToken0 w = (got, leaseToken, w3) ->
  trace w3 = trace w ++ reads ->
  In e reads ->
  hitWith value e ->
  got = (try reply <- deserialize value ;; Return (Some reply))%exc
  /\ lastReply reads = Some e.
Proof.
  intros Hget Htrace Hin Hhit.
  destruct (enableLeases (leaseSettings_ this)) eqn:Hleases.
  - destruct (lease_read_of_trace _ _ _ _ _ _ _ Hleases Hget Htrace)
      as (Hreads & _ & Hhot & Hres & _).
    rewrite Hreads in Hin.
    destruct (leaseGetTrace_events _ _ _ _ Hin) as [[ms ->]|(r & Hr & ->)];
      [contradiction|].
    destruct Hhit as [Hresult Hvalue].
    assert (Hclass : classifyLeaseGet r = LeaseHit value).
    { unfold classifyLeaseGet. rewrite Hresult, Hvalue. reflexivity. }
    assert (Hlast : lastReply (leaseGetReplies reads) = Some r).
    { apply not_hot_miss_is_last; [exact Hhot|exact Hr|].
      unfold isHotMiss. congruence. }
    unfold leaseGetResult in Hres. rewrite Hlast, Hclass in Hres.
    split; [congruence|].
    rewrite Hreads. apply lastReply_leaseGetTrace. exact Hlast.
  - unfold carbonLookasideGet in Hget. rewrite Hleases in Hget.
    unfold carbonLookasideGet_plain, bind at 1 in Hget.
    unfold bind at 1 in Hget. rewrite send_get_run in Hget.
    unfold ret in Hget. injection Hget as <- _ <-.
    cbn [trace] in Htrace. apply app_inv_head in Htrace. subst reads.
    destruct Hin as [<-|[]]. destruct Hhit as [Hresult Hvalue].
    unfold getCallback. rewrite Hresult, Hvalue. split; reflexivity.
Qed.



(** ** The key *)

(** Every cache operation of one [route] call carries the key built from
    the prefix, the helper's key and the suffix. *)
Lemma route_keys (req : Request) (w : World) (e1 e2 : Env) (k : string) :
  helper_cacheCandidate (carbonLookasideHelper_ this) req (env w) = (true, e1) ->
  helper_buildKey (carbonLookasideHelper_ this) req e1 = (k, e2) ->
  exists events : list Event,
    trace (snd (route this req w)) = trace w ++ events
    /\ forall e key', In e events -> eventKey e = Some key' ->
         key' = (keyPrefix_ this ++ k ++ keySuffix_ this)%string.
Proof.
  intros Hcand Hkey.
  set (key := (keyPrefix_ this ++ k ++ keySuffix_ this)%string).
  pose proof (carbonLookasideGet_reads key 0 {| env := e2; trace := trace w |})
    as [reads Hreads].
  destruct (carbonLookasideGet this key 0 {| env := e2; trace := trace w |})
    as [[optReply leaseToken] w3] eqn:Hget.
  cbn [trace] in Hreads. destruct Hreads as (Htr & Hro & _ & _).
  destruct optReply as [[reply|]|what].
  - exists reads. rewrite route_run, Hcand, Hkey. cbn zeta. fold key.
    rewrite Hget. split; [exact Htr|].
    intros e key' He Hk. exact (proj2 (proj2 (Hro e He)) key' Hk).
  - rewrite (route_miss_run _ _ _ _ _ _ _ Hcand Hkey Hget). cbn [snd trace].
    fold key. rewrite Htr, <- app_assoc.
    eexists; split; [reflexivity|].
    intros e key' He Hk. apply in_app_or in He.
    destruct He as [He|[<-|[<-|[]]]].
    + exact (proj2 (proj2 (Hro e He)) key' Hk).
    + discriminate.
    + unfold expectedWrite in Hk.
      destruct (enableLeases (leaseSettings_ this) && negb (leaseToken =? 0));
        cbn in Hk; congruence.
  - exists reads. rewrite route_run, Hcand, Hkey. cbn zeta. fold key.
    rewrite Hget. split; [exact Htr|].
    intros e key' He Hk. exact (proj2 (proj2 (Hro e He)) key' Hk).
Qed.

End Properties.

(** ** Construction *)

Section Construction.

Context `{RI : RouterInfo} `{HI : !CarbonLookasideHelperIf}
        `{MI : !MemcacheRouterInfo} `{EI : !Externals}.



End Construction.

(** * Further properties of the route *)

Section RouteRuns.

Context `{RI : RouterInfo} `{HI : !CarbonLookasideHelperIf}
        `{MI : !MemcacheRouterInfo} `{EI : !Externals}.

Variable this : CarbonLookasideRoute.

Lemma readOnly_read_steps (key : string) (reads : list Event) :
  readOnly key reads -> Forall (fun e => isReadStep e = true) reads.
Proof.
  intros Hro. apply Forall_forall. intros e He.
  destruct (Hro e He) as (Hchild & Hwrite & _).
  destruct e; cbn in *; congruence.
Qed.

(** One call of [route], seen whole: the reads it made, whether it got a
    reply from them, and what it did after. *)
Lemma route_whole (req : Request) (w : World) :
  (exists e1,
     helper_cacheCandidate (carbonLookasideHelper_ this) req (env w) = (false, e1)
     /\ route this req w =
          (Return (fst (child_route (child_ this) req e1)),
           {| env := snd (child_route (child_ this) req e1);
              trace := trace w ++
                [EvChildRoute (child_ this) req
                   (fst (child_route (child_ this) req e1))] |}))
  \/ (exists e1 k e2 reads optReply leaseToken w3,
        helper_cacheCandidate (carbonLookasideHelper_ this) req (env w) = (true, e1)
        /\ helper_buildKey (carbonLookasideHelper_ this) req e1 = (k, e2)
        /\ carbonLookasideGet this (keyPrefix_ this ++ k ++ keySuffix_ this) 0
             {| env := e2; trace := trace w |} = (optReply, leaseToken, w3)
        /\ trace w3 = trace w ++ reads
        /\ readOnly (keyPrefix_ this ++ k ++ keySuffix_ this) reads
        /\ match optReply with
           | Throw what => route this req w = (Throw what, w3)
           | Return (Some reply) => route this req w = (Return reply, w3)
           | Return None =>
               route this req w =
                 (Return (fst (child_route (child_ this) req (env w3))),
                  {| env := snd (child_route (child_ this) req (env w3));
                     trace := trace w3 ++
                       [EvChildRoute (child_ this) req
                          (fst (child_route (child_ this) req (env w3)));
                        EvAddTask
                          (expectedWrite this
                             (keyPrefix_ this ++ k ++ keySuffix_ this)
                             (fst (child_route (child_ this) req (env w3)))
                             leaseToken)] |})
           end).
Proof.
  destruct (helper_cacheCandidate (carbonLookasideHelper_ this) req (env w))
    as [[|] e1] eqn:Hcand.
  - right.
    destruct (helper_buildKey (carbonLookasideHelper_ this) req e1)
      as [k e2] eqn:Hkey.
    pose proof (carbonLookasideGet_reads this
                  (keyPrefix_ this ++ k ++ keySuffix_ this) 0
                  {| env := e2; trace := trace w |}) as [reads Hreads].
    destruct (carbonLookasideGet this (keyPrefix_ this ++ k ++ keySuffix_ this) 0
                {| env := e2; trace := trace w |})
      as [[optReply leaseToken] w3] eqn:Hget.
    cbn [trace] in Hreads. destruct Hreads as (Htr & Hro & _ & _).
    exists e1, k, e2, reads, optReply, leaseToken, w3.
    repeat (split; [first [assumption | reflexivity]|]).
    destruct optReply as [[reply|]|what].
    + rewrite route_run, Hcand, Hkey. cbn zeta. rewrite Hget. reflexivity.
    + exact (route_miss_run this req w e1 e2 k leaseToken w3 Hcand Hkey Hget).
    + rewrite route_run, Hcand, Hkey. cbn zeta. rewrite Hget. reflexivity.
  - left. exists e1. split; [reflexivity|].
    rewrite route_run, Hcand, routeHandle_route_run. reflexivity.
Qed.

(** X1.  In one call of [route] the GETs, LEASE_GETs and sleeps come first;
    after them comes nothing, or one call of the child whose reply is the
    one returned, or that call followed by one detached write.  So the child
    is routed to at most once, at most one write is dispatched and only
    after the child replied, and [route] itself never sends a SET. *)
Theorem route_reads_then_child_then_write (req : Request) (w : World) :
  exists reads tail : list Event,
    trace (snd (route this req w)) = trace w ++ reads ++ tail
    /\ Forall (fun e => isReadStep e = true) reads
    /\ (tail = []
        \/ exists reply,
             fst (route this req w) = Return reply
             /\ (tail = [EvChildRoute (child_ this) req reply]
                 \/ exists task,
                      tail = [EvChildRoute (child_ this) req reply;
                              EvAddTask task])).
Proof.
  destruct (route_whole req w)
    as [(e1 & _ & Hrun)
       |(e1 & k & e2 & reads & optReply & tok & w3 & _ & _ & _ & Htr & Hro & Hrun)].
  - exists [], [EvChildRoute (child_ this) req
                  (fst (child_route (child_ this) req e1))].
    rewrite Hrun. cbn [fst snd trace app].
    split; [reflexivity|]. split; [constructor|].
    right. eexists. split; [reflexivity|]. left; reflexivity.
  - exists reads. destruct optReply as [[reply|]|what].
    + exists []. rewrite Hrun. cbn [fst snd]. rewrite app_nil_r.
      split; [exact Htr|]. split; [exact (readOnly_read_steps _ _ Hro)|].
      left; reflexivity.
    + eexists. rewrite Hrun. cbn [fst snd trace]. rewrite Htr, <- app_assoc.
      split; [reflexivity|]. split; [exact (readOnly_read_steps _ _ Hro)|].
      right. eexists. split; [reflexivity|]. right. eexists; reflexivity.
    + exists []. rewrite Hrun. cbn [fst snd]. rewrite app_nil_r.
      split; [exact Htr|]. split; [exact (readOnly_read_steps _ _ Hro)|].
      left; reflexivity.
Qed.

Lemma lastReply_In {A : Type} (l : list A) (x : A) :
  lastReply l = Some x -> In x l.
Proof.
  induction l as [|y l IH]; [discriminate|].
  destruct l as [|z l].
  - cbn. intros [= ->]. left; reflexivity.
  - rewrite lastReply_cons. intros H. right. exact (IH H).
Qed.

Lemma classifyLeaseGet_hit (r : McLeaseGetReply) (value : IOBuf) :
  classifyLeaseGet r = LeaseHit value ->
  lease_get_result r = ResultHit /\ lease_get_value r = Some value.
Proof.
  unfold classifyLeaseGet.
  destruct (lease_get_result r), (lease_get_value r); cbn;
    try (destruct (lease_get_leaseToken r =? 1)); intros H;
    try discriminate H.
  all: injection H as ->; auto.
Qed.

Lemma classifyLeaseGet_miss (r : McLeaseGetReply) (token : Z) :
  classifyLeaseGet r = LeaseMiss token ->
  lease_get_result r = ResultMiss /\ lease_get_leaseToken r = token /\ token <> 1.
Proof.
  unfold classifyLeaseGet.
  destruct (lease_get_result r), (lease_get_value r); cbn;
    try (destruct (lease_get_leaseToken r =? 1) eqn:Htok); intros H;
    try discriminate H.
  all: injection H as <-; apply Z.eqb_neq in Htok; auto.
Qed.

(** A reply a read returns was deserialized from the value of a hit among
    the events of that read. *)
Lemma read_reply_from_hit (key : string) (leaseToken0 : Z) (w : World)
    (reply : Reply) (leaseToken : Z) (w3 : World) (reads : list Event) :
  carbonLookasideGet this key leaseToken0 w = (Return (Some reply), leaseToken, w3) ->
  trace w3 = trace w ++ reads ->
  exists e value,
    In e reads /\ hitWith value e /\ deserialize value = Return reply.
Proof.
  intros Hget Htrace.
  destruct (enableLeases (leaseSettings_ this)) eqn:Hleases.
  - destruct (lease_read_of_trace this _ _ _ _ _ _ _ Hleases Hget Htrace)
      as (Hreads & _ & _ & Hres & _).
    unfold leaseGetResult in Hres.
    destruct (lastReply (leaseGetReplies reads)) as [r|] eqn:Hlast;
      [|discriminate].
    destruct (classifyLeaseGet r) as [value| | |] eqn:Hclass; try discriminate.
    exists (EvSendLeaseGet {| lease_get_key := key |} r), value.
    split; [|split].
    + rewrite Hreads. apply lastReply_In. apply lastReply_leaseGetTrace.
      exact Hlast.
    + exact (classifyLeaseGet_hit _ _ Hclass).
    + destruct (deserialize value); cbn in Hres; congruence.
  - unfold carbonLookasideGet in Hget. rewrite Hleases in Hget.
    unfold carbonLookasideGet_plain, bind at 1 in Hget.
    unfold bind at 1 in Hget. rewrite send_get_run in Hget.
    unfold ret in Hget. injection Hget as Hcb _ <-.
    cbn [trace] in Htrace. apply app_inv_head in Htrace. subst reads.
    set (r := fst (client_send_get (client_ this) {| get_key := key |} (env w)))
      in *.
    unfold getCallback in Hcb.
    destruct (get_result r) eqn:Hresult; cbn in Hcb; try discriminate.
    destruct (get_value r) as [value|] eqn:Hvalue; cbn in Hcb; try discriminate.
    exists (EvSendGet {| get_key := key |} r), value.
    split; [left; reflexivity|]. split; [cbn; auto|].
    destruct (deserialize value); cbn in Hcb; congruence.
Qed.

(** An exception that ends a read was thrown by [deserialize] on the value
    of a hit among the events of that read. *)
Lemma read_throw_from_hit (key : string) (leaseToken0 : Z) (w : World)
    (what : string) (leaseToken : Z) (w3 : World) (reads : list Event) :
  carbonLookasideGet this key leaseToken0 w = (Throw what, leaseToken, w3) ->
  trace w3 = trace w ++ reads ->
  exists e value,
    In e reads /\ hitWith value e /\ deserialize value = Throw what.
Proof.
  intros Hget Htrace.
  destruct (enableLeases (leaseSettings_ this)) eqn:Hleases.
  - destruct (lease_read_of_trace this _ _ _ _ _ _ _ Hleases Hget Htrace)
      as (Hreads & _ & _ & Hres & _).
    unfold leaseGetResult in Hres.
    destruct (lastReply (leaseGetReplies reads)) as [r|] eqn:Hlast;
      [|discriminate].
    destruct (classifyLeaseGet r) as [value| | |] eqn:Hclass; try discriminate.
    exists (EvSendLeaseGet {| lease_get_key := key |} r), value.
    split; [|split].
    + rewrite Hreads. apply lastReply_In. apply lastReply_leaseGetTrace.
      exact Hlast.
    + exact (classifyLeaseGet_hit _ _ Hclass).
    + destruct (deserialize value); cbn in Hres; congruence.
  - unfold carbonLookasideGet in Hget. rewrite Hleases in Hget.
    unfold carbonLookasideGet_plain, bind at 1 in Hget.
    unfold bind at 1 in Hget. rewrite send_get_run in Hget.
    unfold ret in Hget. injection Hget as Hcb _ <-.
    cbn [trace] in Htrace. apply app_inv_head in Htrace. subst reads.
    set (r := fst (client_send_get (client_ this) {| get_key := key |} (env w)))
      in *.
    unfold getCallback in Hcb.
    destruct (get_result r) eqn:Hresult; cbn in Hcb; try discriminate.
    destruct (get_value r) as [value|] eqn:Hvalue; cbn in Hcb; try discriminate.
    exists (EvSendGet {| get_key := key |} r), value.
    split; [left; reflexivity|]. split; [cbn; auto|].
    destruct (deserialize value); cbn in Hcb; congruence.
Qed.

(** The token a lease read hands on is 0 or the token of a miss it
    received, which is never the hot-miss token. *)
Lemma read_token_from_miss (key : string) (leaseToken0 : Z) (w : World)
    (optReply : Exc (option Reply)) (leaseToken : Z) (w3 : World)
    (reads : list Event) :
  enableLeases (leaseSettings_ this) = true ->
  carbonLookasideGet this key leaseToken0 w = (optReply, leaseToken, w3) ->
  trace w3 = trace w ++ reads ->
  leaseToken <> 0 ->
  leaseToken <> 1
  /\ exists r, In (EvSendLeaseGet {| lease_get_key := key |} r) reads
       /\ lease_get_result r = ResultMiss
       /\ lease_get_leaseToken r = leaseToken.
Proof.
  intros Hleases Hget Htrace Hnz.
  destruct (lease_read_of_trace this _ _ _ _ _ _ _ Hleases Hget Htrace)
    as (Hreads & _ & _ & Hres & _).
  unfold leaseGetResult in Hres.
  destruct (lastReply (leaseGetReplies reads)) as [r|] eqn:Hlast;
    [|congruence].
  destruct (classifyLeaseGet r) as [value| |token|] eqn:Hclass; try congruence.
  destruct (classifyLeaseGet_miss _ _ Hclass) as (Hresult & Htoken & Hhot).
  injection Hres as _ ->.
  split; [exact Hhot|]. exists r. split; [|auto].
  rewrite Hreads. apply lastReply_In, lastReply_leaseGetTrace. exact Hlast.
Qed.

(** The detached writes of one call. *)
Lemma route_written_tasks (req : Request) (w : World) :
  exists events : list Event,
    trace (snd (route this req w)) = trace w ++ events
    /\ forall task, In (EvAddTask task) events ->
         exists reply,
           fst (route this req w) = Return reply
           /\ taskValue task = serialize reply
           /\ taskExptime task = ttl_ this.
Proof.
  destruct (route_whole req w)
    as [(e1 & _ & Hrun)
       |(e1 & k & e2 & reads & optReply & tok & w3 & _ & _ & _ & Htr & Hro & Hrun)].
  - rewrite Hrun. cbn [fst snd trace]. eexists; split; [reflexivity|].
    intros task [H|[]]. discriminate H.
  - destruct optReply as [[reply|]|what]; rewrite Hrun; cbn [fst snd trace].
    + exists reads. split; [exact Htr|].
      intros task Hin. destruct (Hro _ Hin) as (_ & Hw & _). discriminate Hw.
    + rewrite Htr, <- app_assoc. eexists; split; [reflexivity|].
      intros task Hin. apply in_app_or in Hin.
      destruct Hin as [Hin|[H|[H|[]]]].
      * destruct (Hro _ Hin) as (_ & Hw & _). discriminate Hw.
      * discriminate H.
      * injection H as <-. eexists. split; [reflexivity|].
        unfold expectedWrite.
        destruct (enableLeases (leaseSettings_ this) && negb (tok =? 0));
          split; reflexivity.
    + exists reads. split; [exact Htr|].
      intros task Hin. destruct (Hro _ Hin) as (_ & Hw & _). discriminate Hw.
Qed.

(** X2.  Whatever [route] writes is the reply it returns: every detached
    write of one call carries the serialization of the reply [route] hands
    to its caller, with [ttl_] as expiration. *)
Theorem route_writes_returned_reply (req : Request) (w : World) :
  exists events : list Event,
    trace (snd (route this req w)) = trace w ++ events
    /\ forall task, In (EvAddTask task) events ->
         exists reply,
           fst (route this req w) = Return reply
           /\ taskValue task = serialize reply
           /\ taskExptime task = ttl_ this.
Proof. exact (route_written_tasks req w). Qed.


(** X4.  A LEASE_SET is dispatched only with leases enabled, and its token
    is one a LEASE_GET of the same call returned with a miss; it is never 0
    and never the hot-miss token 1. *)
Theorem lease_set_token_from_lease_get (req : Request) (w : World) :
  exists events : list Event,
    trace (snd (route this req w)) = trace w ++ events
    /\ forall leaseSet, In (EvAddTask (TaskSendLeaseSet leaseSet)) events ->
         enableLeases (leaseSettings_ this) = true
         /\ lease_set_leaseToken leaseSet <> 0
         /\ lease_set_leaseToken leaseSet <> 1
         /\ exists leaseGet r,
              In (EvSendLeaseGet leaseGet r) events
              /\ lease_get_key leaseGet = lease_set_key leaseSet
              /\ lease_get_result r = ResultMiss
              /\ lease_get_leaseToken r = lease_set_leaseToken leaseSet.
Proof.
  destruct (route_whole req w)
    as [(e1 & _ & Hrun)
       |(e1 & k & e2 & reads & optReply & tok & w3 & _ & _ & Hget & Htr & Hro & Hrun)].
  - rewrite Hrun. cbn [fst snd trace]. eexists; split; [reflexivity|].
    intros leaseSet [H|[]]. discriminate H.
  - destruct optReply as [[reply|]|what]; rewrite Hrun; cbn [fst snd trace];
      [| |exists reads; split; [exact Htr|];
          intros leaseSet Hin; destruct (Hro _ Hin) as (_ & Hw & _);
          discriminate Hw].
    + exists reads. split; [exact Htr|].
      intros leaseSet Hin. destruct (Hro _ Hin) as (_ & Hw & _). discriminate Hw.
    + rewrite Htr, <- app_assoc. eexists; split; [reflexivity|].
      intros leaseSet Hin. apply in_app_or in Hin.
      destruct Hin as [Hin|[H|[H|[]]]].
      * destruct (Hro _ Hin) as (_ & Hw & _). discriminate Hw.
      * discriminate H.
      * injection H as Hwrite. unfold expectedWrite in Hwrite.
        destruct (enableLeases (leaseSettings_ this)) eqn:Hleases;
          [|discriminate Hwrite].
        destruct (tok =? 0) eqn:Htok; [discriminate Hwrite|].
        cbn in Hwrite. injection Hwrite as <-. cbn.
        apply Z.eqb_neq in Htok.
        destruct (read_token_from_miss _ _ _ _ _ _ _ Hleases Hget Htr Htok)
          as (Hhot & r & Hin & Hresult & Htoken).
        repeat split; auto.
        exists {| lease_get_key := keyPrefix_ this ++ k ++ keySuffix_ this |}, r.
        repeat split; auto.
        apply in_or_app. left. exact Hin.
Qed.


(** ** Reads without leases, and reads that fail *)

(** The plain read of one [route] call, seen from its trace. *)
Lemma plain_read_of_trace (key : string) (leaseToken0 : Z) (w : World)
    (optReply : Exc (option Reply)) (leaseToken : Z) (w3 : World)
    (reads : list Event) :
  enableLeases (leaseSettings_ this) = false ->
  carbonLookasideGet this key leaseToken0 w = (optReply, leaseToken, w3) ->
  trace w3 = trace w ++ reads ->
  reads = [EvSendGet {| get_key := key |}
             (fst (client_send_get (client_ this) {| get_key := key |} (env w)))]
  /\ leaseToken = leaseToken0.
Proof.
  intros Hleases Hget Htrace.
  unfold carbonLookasideGet in Hget. rewrite Hleases in Hget.
  unfold carbonLookasideGet_plain, bind at 1 in Hget.
  unfold bind at 1 in Hget. rewrite send_get_run in Hget.
  unfold ret in Hget. injection Hget as _ <- <-.
  cbn [trace] in Htrace. apply app_inv_head in Htrace. auto.
Qed.

(** One call without leases, in full. *)
Lemma route_without_leases_run (req : Request) (w : World) (e1 e2 : Env)
    (k : string) :
  enableLeases (leaseSettings_ this) = false ->
  helper_cacheCandidate (carbonLookasideHelper_ this) req (env w) = (true, e1) ->
  helper_buildKey (carbonLookasideHelper_ this) req e1 = (k, e2) ->
  let key := (keyPrefix_ this ++ k ++ keySuffix_ this)%string in
  let get := {| get_key := key |} in
  let cacheReply := fst (client_send_get (client_ this) get e2) in
  let e3 := snd (client_send_get (client_ this) get e2) in
  let childReply := fst (child_route (child_ this) req e3) in
  route this req w =
    match get_result cacheReply, get_value cacheReply with
    | ResultHit, Some value =>
        (deserialize value,
         {| env := e3; trace := trace w ++ [EvSendGet get cacheReply] |})
    | _, _ =>
        (Return childReply,
         {| env := snd (child_route (child_ this) req e3);
            trace := trace w ++
              [EvSendGet get cacheReply;
               EvChildRoute (child_ this) req childReply;
               EvAddTask (TaskSendSet {| set_key := key;
                                         set_exptime := ttl_ this;
                                         set_value := serialize childReply |})] |})
    end.
Proof.
  intros Hleases Hcand Hkey key get cacheReply e3 childReply.
  assert (Hwrite : forall reply tok,
            expectedWrite this key reply tok =
            TaskSendSet {| set_key := key; set_exptime := ttl_ this;
                           set_value := serialize reply |}).
  { intros reply tok. unfold expectedWrite. rewrite Hleases. reflexivity. }
  rewrite route_run, Hcand, Hkey. cbn zeta. fold key.
  unfold carbonLookasideGet. rewrite Hleases.
  unfold carbonLookasideGet_plain, bind at 1. unfold bind at 1.
  rewrite send_get_run. unfold ret. cbn [env trace].
  fold get. fold cacheReply. fold e3. unfold getCallback.
  destruct (get_result cacheReply), (get_value cacheReply) as [value|];
    cbn [isHitResult hasValue andb];
    try (destruct (deserialize value); reflexivity);
    rewrite routeHandle_route_run; cbn [env trace fst snd];
    fold childReply; rewrite Hwrite, <- !app_assoc; reflexivity.
Qed.


(** X6.  A LEASE_GET answered by neither a usable hit nor a miss (an error
    result, or a hit without a value) is not retried: it is the last event
    of the read, which returns no reply and token 0; the child is routed to
    and its reply dispatched in a plain SET. *)
Theorem route_lease_read_failure (req : Request) (w : World) (e1 e2 : Env)
    (k : string) (optReply : Exc (option Reply)) (leaseToken : Z) (w3 : World)
    (reads : list Event) (r : McLeaseGetReply) :
  enableLeases (leaseSettings_ this) = true ->
  helper_cacheCandidate (carbonLookasideHelper_ this) req (env w) = (true, e1) ->
  helper_buildKey (carbonLookasideHelper_ this) req e1 = (k, e2) ->
  carbonLookasideGet this (keyPrefix_ this ++ k ++ keySuffix_ this) 0
    {| env := e2; trace := trace w |} = (optReply, leaseToken, w3) ->
  trace w3 = trace w ++ reads ->
  In r (leaseGetReplies reads) ->
  lease_get_result r = ResultOther
  \/ (lease_get_result r = ResultHit /\ lease_get_value r = None) ->
  let key := (keyPrefix_ this ++ k ++ keySuffix_ this)%string in
  let childReply := fst (child_route (child_ this) req (env w3)) in
  lastReply reads = Some (EvSendLeaseGet {| lease_get_key := key |} r)
  /\ route this req w =
       (Return childReply,
        {| env := snd (child_route (child_ this) req (env w3));
           trace := trace w3 ++
             [EvChildRoute (child_ this) req childReply;
              EvAddTask (TaskSendSet {| set_key := key;
                                        set_exptime := ttl_ this;
                                        set_value := serialize childReply |})] |}).
Proof.
  intros Hleases Hcand Hkey Hget Htrace Hin Hfail key childReply.
  destruct (lease_read_of_trace this _ _ _ _ _ _ _ Hleases Hget Htrace)
    as (Hreads & _ & Hhot & Hres & _).
  assert (Hclass : classifyLeaseGet r = LeaseOther).
  { unfold classifyLeaseGet.
    destruct Hfail as [->|[-> ->]]; [destruct (lease_get_value r)|];
      reflexivity. }
  assert (Hlast : lastReply (leaseGetReplies reads) = Some r).
  { apply not_hot_miss_is_last; [exact Hhot|exact Hin|].
    unfold isHotMiss. congruence. }
  unfold leaseGetResult in Hres. rewrite Hlast, Hclass in Hres.
  injection Hres as -> ->.
  split.
  - rewrite Hreads. apply lastReply_leaseGetTrace. exact Hlast.
  - rewrite (route_miss_run this _ _ _ _ _ _ _ Hcand Hkey Hget).
    rewrite expectedWrite_no_token. reflexivity.
Qed.

(** X7.  With leases enabled and a negative [numRetries] the loop body never
    runs: no LEASE_GET is sent, the cache is not read at all, and every
    candidate request goes to the child and into a plain SET. *)
Theorem route_negative_retries (req : Request) (w : World) (e1 e2 : Env)
    (k : string) :
  enableLeases (leaseSettings_ this) = true ->
  numRetries (leaseSettings_ this) < 0 ->
  helper_cacheCandidate (carbonLookasideHelper_ this) req (env w) = (true, e1) ->
  helper_buildKey (carbonLookasideHelper_ this) req e1 = (k, e2) ->
  let key := (keyPrefix_ this ++ k ++ keySuffix_ this)%string in
  let childReply := fst (child_route (child_ this) req e2) in
  route this req w =
    (Return childReply,
     {| env := snd (child_route (child_ this) req e2);
        trace := trace w ++
          [EvChildRoute (child_ this) req childReply;
           EvAddTask (TaskSendSet {| set_key := key;
                                     set_exptime := ttl_ this;
                                     set_value := serialize childReply |})] |}).
Proof.
  intros Hleases Hneg Hcand Hkey key childReply.
  assert (Hget : carbonLookasideGet this key 0 {| env := e2; trace := trace w |}
                 = (Return None, 0, {| env := e2; trace := trace w |})).
  { unfold carbonLookasideGet. rewrite Hleases.
    unfold carbonLookasideLeaseGet.
    replace (Z.to_nat (numRetries (leaseSettings_ this) + 1)) with 0%nat by lia.
    reflexivity. }
  rewrite (route_miss_run this _ _ _ _ _ _ _ Hcand Hkey Hget).
  rewrite expectedWrite_no_token. reflexivity.
Qed.


(** ** The time spent backing off *)

Lemma sleptMs_app (t1 t2 : list Event) :
  sleptMs (t1 ++ t2) = sleptMs t1 + sleptMs t2.
Proof.
  induction t1 as [|e t1 IH]; [reflexivity|].
  destruct e; cbn; rewrite IH; lia.
Qed.

Lemma sleeps_app (t1 t2 : list Event) :
  sleeps (t1 ++ t2) = sleeps t1 ++ sleeps t2.
Proof.
  induction t1 as [|e t1 IH]; [reflexivity|].
  destruct e; cbn; rewrite ?IH; reflexivity.
Qed.

Lemma sleptMs_sleeps (t : list Event) :
  sleptMs t = fold_right Z.add 0 (sleeps t).
Proof.
  induction t as [|e t IH]; [reflexivity|].
  destruct e; cbn; rewrite ?IH; reflexivity.
Qed.

Lemma sleeps_retries (req : McLeaseGetRequest) :
  forall (replies : list McLeaseGetReply) (intervals : list Z),
    List.length intervals = List.length replies ->
    sleeps (retriesTrace req intervals replies) = intervals.
Proof.
  unfold retriesTrace.
  induction replies as [|r replies IH]; intros [|ms intervals] Hlen;
    try discriminate; [reflexivity|].
  cbn. f_equal. apply IH. cbn in Hlen. lia.
Qed.

Lemma sleeps_leaseGetTrace (ls : LeaseSettings) (key : string)
    (replies : list McLeaseGetReply) :
  sleeps (leaseGetTrace ls key replies)
  = backoffIntervals (maxWaitMs ls) (initialWaitMs ls) (List.length replies - 1).
Proof.
  destruct replies as [|r replies]; [reflexivity|].
  cbn [leaseGetTrace sleeps List.length].
  replace (S (List.length replies) - 1)%nat with (List.length replies) by lia.
  apply sleeps_retries, backoffIntervals_length.
Qed.

(** As long as the doubling stays within [int32_t], every sleep of the
    schedule lasts between 0 and [maxWaitMs]. *)
Lemma backoffIntervals_range (maxWait : Z) (n : nat) :
  maxWait < 2 ^ 30 ->
  forall wait, 0 <= wait <= maxWait ->
    Forall (fun ms => 0 <= ms <= maxWait) (backoffIntervals maxWait wait n).
Proof.
  intros Hmax.
  induction n as [|n IH]; intros wait Hwait; cbn; constructor; [exact Hwait|].
  apply IH. rewrite mul_int32_double by lia. lia.
Qed.

Lemma sum_of_bounded (bound : Z) (l : list Z) :
  Forall (fun ms => 0 <= ms <= bound) l ->
  0 <= fold_right Z.add 0 l <= Z.of_nat (List.length l) * bound.
Proof.
  induction 1 as [|ms l Hms Hall IH]; [cbn; lia|].
  cbn [fold_right List.length]. nia.
Qed.

(** The sleeps of a read are the first sleeps of the schedule, fewer than
    the attempts made. *)
Lemma read_sleeps (key : string) (leaseToken0 : Z) (w : World)
    (optReply : Exc (option Reply)) (leaseToken : Z) (w3 : World)
    (reads : list Event) :
  carbonLookasideGet this key leaseToken0 w = (optReply, leaseToken, w3) ->
  trace w3 = trace w ++ reads ->
  exists n : nat,
    Z.of_nat n <= Z.max 0 (numRetries (leaseSettings_ this))
    /\ sleeps reads
       = backoffIntervals (maxWaitMs (leaseSettings_ this))
           (initialWaitMs (leaseSettings_ this)) n.
Proof.
  intros Hget Htrace.
  destruct (enableLeases (leaseSettings_ this)) eqn:Hleases.
  - destruct (lease_read_of_trace this _ _ _ _ _ _ _ Hleases Hget Htrace)
      as (Hreads & Hlen & _).
    unfold maxAttempts in Hlen.
    exists (List.length (leaseGetReplies reads) - 1)%nat.
    split; [lia|].
    rewrite Hreads at 1. apply sleeps_leaseGetTrace.
  - destruct (plain_read_of_trace _ _ _ _ _ _ _ Hleases Hget Htrace)
      as [-> _].
    exists 0%nat. split; [lia|reflexivity].
Qed.

(** X8.  When [0 <= initialWaitMs <= maxWaitMs < 2^30] and
    [0 <= numRetries], one call of [route] sleeps at most [numRetries]
    times, each sleep lasts between 0 and [maxWaitMs] milliseconds, and so
    the time the call spends asleep, the sum of these durations, is between
    0 and [numRetries * maxWaitMs] milliseconds. *)
Theorem route_sleep_bound (req : Request) (w : World) :
  0 <= initialWaitMs (leaseSettings_ this) <= maxWaitMs (leaseSettings_ this) ->
  maxWaitMs (leaseSettings_ this) < 2 ^ 30 ->
  0 <= numRetries (leaseSettings_ this) ->
  exists events : list Event,
    trace (snd (route this req w)) = trace w ++ events
    /\ Forall (fun ms => 0 <= ms <= maxWaitMs (leaseSettings_ this))
         (sleeps events)
    /\ Z.of_nat (List.length (sleeps events)) <= numRetries (leaseSettings_ this)
    /\ sleptMs events = fold_right Z.add 0 (sleeps events)
    /\ 0 <= sleptMs events
         <= numRetries (leaseSettings_ this) * maxWaitMs (leaseSettings_ this).
Proof.
  intros Hinit Hmax Hretries.
  assert (Hgoal : exists events : list Event,
            trace (snd (route this req w)) = trace w ++ events
            /\ Forall (fun ms => 0 <= ms <= maxWaitMs (leaseSettings_ this))
                 (sleeps events)
            /\ Z.of_nat (List.length (sleeps events))
               <= numRetries (leaseSettings_ this)).
  { destruct (route_whole req w)
      as [(e1 & _ & Hrun)
         |(e1 & k & e2 & reads & optReply & tok & w3
           & _ & _ & Hget & Htr & _ & Hrun)].
    - rewrite Hrun. cbn [snd trace]. eexists. split; [reflexivity|].
      cbn. split; [constructor|lia].
    - destruct (read_sleeps _ _ _ _ _ _ _ Hget Htr) as (n & Hn & Hsleeps).
      assert (Hreads :
                Forall (fun ms => 0 <= ms <= maxWaitMs (leaseSettings_ this))
                  (sleeps reads)
                /\ Z.of_nat (List.length (sleeps reads))
                   <= numRetries (leaseSettings_ this)).
      { rewrite Hsleeps, backoffIntervals_length.
        split; [apply backoffIntervals_range; assumption|lia]. }
      destruct optReply as [[reply|]|what]; rewrite Hrun; cbn [snd trace].
      + exists reads. split; [exact Htr|exact Hreads].
      + rewrite Htr, <- app_assoc. eexists. split; [reflexivity|].
        rewrite sleeps_app. cbn [sleeps]. rewrite app_nil_r. exact Hreads.
      + exists reads. split; [exact Htr|exact Hreads]. }
  destruct Hgoal as (events & Htr & Hall & Hcount).
  exists events. split; [exact Htr|]. split; [exact Hall|].
  split; [exact Hcount|]. split; [apply sleptMs_sleeps|].
  rewrite sleptMs_sleeps.
  pose proof (sum_of_bounded _ _ Hall) as Hsum. nia.
Qed.

(** The schedule in closed form, as long as the doubling stays within
    [int32_t]. *)
Lemma backoffIntervals_closed_form (maxWait wait0 : Z) :
  0 <= wait0 -> 0 <= maxWait < 2 ^ 30 ->
  forall (n j : nat),
    backoffIntervals maxWait (Z.min (wait0 * 2 ^ Z.of_nat j) maxWait) n
    = map (fun i => Z.min (wait0 * 2 ^ Z.of_nat i) maxWait) (seq j n).
Proof.
  intros Hwait Hmax.
  induction n as [|n IH]; intros j; [reflexivity|].
  cbn [backoffIntervals seq map]. f_equal.
  rewrite <- IH. f_equal.
  assert (Hpow : 0 < 2 ^ Z.of_nat j) by (apply Z.pow_pos_nonneg; lia).
  rewrite Nat2Z.inj_succ, Z.pow_succ_r by lia.
  rewrite mul_int32_double by lia.
  lia.
Qed.

(** X9.  When [0 <= initialWaitMs <= maxWaitMs < 2^30], the sleeps of a
    lease read are, in order, [min(initialWaitMs * 2^i, maxWaitMs)] for
    [i = 0, 1, ...], at most [numRetries] of them. *)
Theorem lease_read_sleeps_double (key : string) (leaseToken0 : Z) (w : World) :
  0 <= initialWaitMs (leaseSettings_ this) <= maxWaitMs (leaseSettings_ this) ->
  maxWaitMs (leaseSettings_ this) < 2 ^ 30 ->
  exists (events : list Event) (n : nat),
    trace (snd (carbonLookasideLeaseGet this key leaseToken0 w))
    = trace w ++ events
    /\ Z.of_nat n <= Z.max 0 (numRetries (leaseSettings_ this))
    /\ filter (fun e => negb (isLeaseGet e)) events
       = map (fun i =>
                EvSleep (Z.min (initialWaitMs (leaseSettings_ this) * 2 ^ Z.of_nat i)
                               (maxWaitMs (leaseSettings_ this))))
           (seq 0 n).
Proof.
  intros Hinit Hmax.
  destruct (carbonLookasideLeaseGet_run this key leaseToken0 w) as [replies Hrun].
  destruct (carbonLookasideLeaseGet this key leaseToken0 w) as [[ret_ tok] w'].
  destruct Hrun as (Hlen & Htr & _). unfold maxAttempts in Hlen.
  cbn [snd].
  exists (leaseGetTrace (leaseSettings_ this) key replies),
         (List.length replies - 1)%nat.
  split; [exact Htr|]. split; [lia|].
  destruct replies as [|r replies]; [reflexivity|].
  cbn [leaseGetTrace filter isLeaseGet negb List.length].
  replace (S (List.length replies) - 1)%nat with (List.length replies) by lia.
  rewrite retriesTrace_sleeps.
  pose proof (backoffIntervals_closed_form (maxWaitMs (leaseSettings_ this))
                (initialWaitMs (leaseSettings_ this)) ltac:(lia) ltac:(lia)
                (List.length replies) 0%nat) as Hclosed.
  cbn [Z.of_nat] in Hclosed. rewrite Z.pow_0_r, Z.mul_1_r in Hclosed.
  rewrite Z.min_l in Hclosed by lia.
  rewrite Hclosed, map_map. reflexivity.
Qed.


(** ** Keys do not collide *)

Lemma string_length_append (a b : string) :
  String.length (a ++ b) = (String.length a + String.length b)%nat.
Proof. induction a as [|c a IH]; cbn; [|rewrite IH]; reflexivity. Qed.

Lemma string_append_inv_head (p a b : string) :
  (p ++ a = p ++ b)%string -> a = b.
Proof.
  induction p as [|c p IH]; cbn; intros H; [exact H|].
  injection H as H. exact (IH H).
Qed.

Lemma string_append_inv_tail (s : string) :
  forall a b : string, (a ++ s = b ++ s)%string -> a = b.
Proof.
  induction a as [|c a IH]; intros [|c' b] H.
  - reflexivity.
  - apply (f_equal String.length) in H. cbn in H.
    rewrite string_length_append in H. lia.
  - apply (f_equal String.length) in H. cbn in H.
    rewrite string_length_append in H. lia.
  - cbn in H. injection H as -> H. f_equal. exact (IH b H).
Qed.

(** X10.  [buildKey] keeps the helper's keys apart: within one route, two
    requests get the same memcache key only if the helper built the same
    key for both. *)
Theorem buildKey_injective (req1 req2 : Request) (w1 w2 : World) :
  fst (buildKey this req1 w1) = fst (buildKey this req2 w2) ->
  fst (helper_buildKey (carbonLookasideHelper_ this) req1 (env w1))
  = fst (helper_buildKey (carbonLookasideHelper_ this) req2 (env w2)).
Proof.
  unfold buildKey, bind, call, ret.
  destruct (helper_buildKey (carbonLookasideHelper_ this) req1 (env w1))
    as [k1 e1].
  destruct (helper_buildKey (carbonLookasideHelper_ this) req2 (env w2))
    as [k2 e2].
  cbn [fst]. intros H.
  apply string_append_inv_head in H.
  exact (string_append_inv_tail _ _ _ H).
Qed.


(** ** A miss, the write, then a hit *)

(** X16.  Without leases, for a stateless helper and a cache that answers a
    GET with the value last SET under the key: a call that missed returns
    the child's reply and dispatches its SET; once the detached SET has run,
    the same request is served from the cache: the second call returns the
    reply of the first (provided the codec reads back what it wrote) and
    does not route to the child. *)
Theorem route_miss_then_hit (req : Request) (w : World) (k : string) :
  let key := (keyPrefix_ this ++ k ++ keySuffix_ this)%string in
  let reply1 :=
    fst (child_route (child_ this) req
           (snd (client_send_get (client_ this) {| get_key := key |} (env w)))) in
  let w1 := snd (route this req w) in
  let set := {| set_key := key;
                set_exptime := ttl_ this;
                set_value := serialize reply1 |} in
  let w2 := snd (runTask this (TaskSendSet set) w1) in
  enableLeases (leaseSettings_ this) = false ->
  (forall e, helper_cacheCandidate (carbonLookasideHelper_ this) req e = (true, e)) ->
  (forall e, helper_buildKey (carbonLookasideHelper_ this) req e = (k, e)) ->
  (forall e s,
     fst (client_send_get (client_ this) {| get_key := set_key s |}
            (snd (client_send_set (client_ this) s e)))
     = {| get_result := ResultHit; get_value := Some (set_value s) |}) ->
  getCallback None
    (fst (client_send_get (client_ this) {| get_key := key |} (env w)))
  = Return None ->
  deserialize (serialize reply1) = Return reply1 ->
  fst (route this req w) = Return reply1
  /\ filter isCacheWrite (trace w1)
     = filter isCacheWrite (trace w) ++ [EvAddTask (TaskSendSet set)]
  /\ fst (route this req w2) = Return reply1
  /\ childRouteCalls (trace (snd (route this req w2))) = childRouteCalls (trace w2).
Proof.
  intros key reply1 w1 set w2 Hleases Hcand Hkey Hstore Hmiss Hcodec.
  pose proof (route_without_leases_run req w (env w) (env w) k Hleases
                (Hcand (env w)) (Hkey (env w))) as Hrun1.
  cbn zeta in Hrun1. fold key in Hrun1. fold reply1 in Hrun1.
  set (r0 := fst (client_send_get (client_ this) {| get_key := key |} (env w)))
    in *.
  assert (Hrun1' : route this req w =
    (Return reply1,
     {| env := snd (child_route (child_ this) req
                 (snd (client_send_get (client_ this) {| get_key := key |} (env w))));
        trace := trace w ++
          [EvSendGet {| get_key := key |} r0;
           EvChildRoute (child_ this) req reply1;
           EvAddTask (TaskSendSet set)] |})).
  { rewrite Hrun1. unfold getCallback in Hmiss.
    destruct (get_result r0), (get_value r0) as [value|]; cbn in Hmiss;
      try (destruct (deserialize value); cbn in Hmiss);
      try discriminate Hmiss; reflexivity. }
  clear Hrun1.
  assert (Hw1 : trace w1 = trace w ++
            [EvSendGet {| get_key := key |} r0;
             EvChildRoute (child_ this) req reply1;
             EvAddTask (TaskSendSet set)]).
  { unfold w1. rewrite Hrun1'. reflexivity. }
  split.
  { rewrite Hrun1'. reflexivity. }
  split.
  { rewrite Hw1, filter_app. reflexivity. }
  assert (Henv2 : env w2 = snd (client_send_set (client_ this) set (env w1))).
  { unfold w2, runTask, send_set, bind, call, emit, ret.
    destruct (client_send_set (client_ this) set (env w1)); reflexivity. }
  pose proof (route_without_leases_run req w2 (env w2) (env w2) k Hleases
                (Hcand (env w2)) (Hkey (env w2))) as Hrun2.
  cbn zeta in Hrun2. fold key in Hrun2.
  assert (Hhit : fst (client_send_get (client_ this) {| get_key := key |} (env w2))
                 = {| get_result := ResultHit;
                      get_value := Some (serialize reply1) |}).
  { rewrite Henv2. exact (Hstore (env w1) set). }
  rewrite Hhit in Hrun2. cbn [get_result get_value] in Hrun2.
  rewrite Hrun2. cbn [fst snd trace].
  split; [exact Hcodec|].
  rewrite childRouteCalls_app. cbn. lia.
Qed.

(** ** The read and the write of one call *)

(** A read sends at least one request under its key, unless leases are
    enabled with a negative [numRetries]. *)
Lemma read_happened (key : string) (leaseToken0 : Z) (w : World)
    (optReply : Exc (option Reply)) (leaseToken : Z) (w3 : World)
    (reads : list Event) :
  carbonLookasideGet this key leaseToken0 w = (optReply, leaseToken, w3) ->
  trace w3 = trace w ++ reads ->
  (reads = [] /\ enableLeases (leaseSettings_ this) = true
   /\ numRetries (leaseSettings_ this) < 0)
  \/ exists e, In e reads /\ isCacheWrite e = false /\ eventKey e = Some key.
Proof.
  intros Hget Htrace.
  destruct (enableLeases (leaseSettings_ this)) eqn:Hleases.
  - destruct (lease_read_of_trace this _ _ _ _ _ _ _ Hleases Hget Htrace)
      as (Hreads & _ & _ & _ & Hearly).
    destruct (leaseGetReplies reads) as [|r replies] eqn:Hreplies.
    + left. split; [exact Hreads|]. split; [reflexivity|].
      unfold maxAttempts in Hearly. cbn [List.length] in Hearly.
      destruct (Z_lt_le_dec (numRetries (leaseSettings_ this)) 0)
        as [Hneg|Hpos]; [exact Hneg|].
      destruct Hearly as (r & Hr & _); [lia|discriminate Hr].
    + right. exists (EvSendLeaseGet {| lease_get_key := key |} r).
      split; [rewrite Hreads; left; reflexivity|]. split; reflexivity.
  - destruct (plain_read_of_trace _ _ _ _ _ _ _ Hleases Hget Htrace)
      as [-> _].
    right. eexists. split; [left; reflexivity|]. split; reflexivity.
Qed.

(** One call for a candidate request: the read under the key, then either
    nothing more, the read having ended on a hit, or the child and the
    write of its reply under the same key. *)
Lemma route_one_key (req : Request) (w : World) (e1 e2 : Env) (k : string) :
  helper_cacheCandidate (carbonLookasideHelper_ this) req (env w) = (true, e1) ->
  helper_buildKey (carbonLookasideHelper_ this) req e1 = (k, e2) ->
  let key := (keyPrefix_ this ++ k ++ keySuffix_ this)%string in
  exists reads tail : list Event,
    trace (snd (route this req w)) = trace w ++ reads ++ tail
    /\ Forall (fun e => isReadStep e = true) reads
    /\ (forall e key', In e (reads ++ tail) -> eventKey e = Some key' -> key' = key)
    /\ ((reads = [] /\ enableLeases (leaseSettings_ this) = true
         /\ numRetries (leaseSettings_ this) < 0)
        \/ exists e, In e reads /\ isCacheWrite e = false /\ eventKey e = Some key)
    /\ ((tail = [] /\ exists e value, lastReply reads = Some e /\ hitWith value e)
        \/ exists reply task,
             tail = [EvChildRoute (child_ this) req reply; EvAddTask task]
             /\ fst (route this req w) = Return reply
             /\ eventKey (EvAddTask task) = Some key
             /\ taskValue task = serialize reply).
Proof.
  intros Hcand Hkey key.
  destruct (route_whole req w)
    as [(e1' & Hcand' & _)
       |(e1' & k' & e2' & reads & optReply & tok & w3
         & Hcand' & Hkey' & Hget & Htr & Hro & Hrun)];
    [congruence|].
  rewrite Hcand in Hcand'. injection Hcand' as <-.
  rewrite Hkey in Hkey'. injection Hkey' as <- <-.
  fold key in Hget, Hro, Hrun.
  pose proof (read_happened _ _ _ _ _ _ _ Hget Htr) as Hread.
  assert (Hkeys : forall e key', In e reads -> eventKey e = Some key' -> key' = key).
  { intros e key' He Hk. exact (proj2 (proj2 (Hro e He)) key' Hk). }
  exists reads.
  destruct optReply as [[reply|]|what].
  - exists []. rewrite Hrun. cbn [fst snd]. rewrite app_nil_r.
    split; [exact Htr|]. split; [exact (readOnly_read_steps _ _ Hro)|].
    split; [exact Hkeys|]. split; [exact Hread|]. left. split; [reflexivity|].
    destruct (read_reply_from_hit _ _ _ _ _ _ _ Hget Htr)
      as (e & value & Hin & Hhit & _).
    exists e, value. split; [|exact Hhit].
    exact (proj2 (read_of_hit this _ _ _ _ _ _ _ _ _ Hget Htr Hin Hhit)).
  - eexists. rewrite Hrun. cbn [fst snd trace]. rewrite Htr, <- app_assoc.
    split; [reflexivity|]. split; [exact (readOnly_read_steps _ _ Hro)|].
    assert (Hwrite : forall reply,
              eventKey (EvAddTask (expectedWrite this key reply tok)) = Some key
              /\ taskValue (expectedWrite this key reply tok) = serialize reply).
    { intros reply. unfold expectedWrite.
      destruct (enableLeases (leaseSettings_ this) && negb (tok =? 0));
        split; reflexivity. }
    split; [|split; [exact Hread|]].
    + intros e key' He Hk. apply in_app_or in He.
      destruct He as [He|[<-|[<-|[]]]].
      * exact (Hkeys e key' He Hk).
      * discriminate Hk.
      * rewrite (proj1 (Hwrite _)) in Hk. congruence.
    + right. do 2 eexists. split; [reflexivity|]. split; [reflexivity|].
      apply Hwrite.
  - exists []. rewrite Hrun. cbn [fst snd]. rewrite app_nil_r.
    split; [exact Htr|]. split; [exact (readOnly_read_steps _ _ Hro)|].
    split; [exact Hkeys|]. split; [exact Hread|]. left. split; [reflexivity|].
    destruct (read_throw_from_hit _ _ _ _ _ _ _ Hget Htr)
      as (e & value & Hin & Hhit & _).
    exists e, value. split; [|exact Hhit].
    exact (proj2 (read_of_hit this _ _ _ _ _ _ _ _ _ Hget Htr Hin Hhit)).
Qed.

End RouteRuns.

(** ** One key per call *)

Section OneKey.

Context `{RI : RouterInfo} `{HI : !CarbonLookasideHelperIf}
        `{MI : !MemcacheRouterInfo} `{EI : !Externals}.

(** C6.  For a candidate request, one [route] call of a constructed route
    reads the cache and, when it goes on to the child, writes the cache
    under one and the same key: the prefix, then the helper's key, then the
    suffix the constructor computed from [keySplitSize]: empty up to 1, else
    [":ks"] followed by [hostid mod keySplitSize] in decimal.  That key is
    what [buildKey] returns.  The call first reads under it (at least one
    GET or LEASE_GET, unless leases are on with a negative [numRetries]);
    then it either stops, the read having ended on a hit, or routes to the
    child and dispatches the write of the child's reply under the same
    key.  No event of the call carries another key. *)
Theorem route_uses_one_key (child : RouteHandlePtr) (router : CarbonRouterInstance)
    (client : CarbonRouterClient) (prefix : string) (keySplitSize : N) (ttl : Z)
    (helper : CarbonLookasideHelper) (ls : LeaseSettings)
    (req : Request) (w : World) (e1 e2 : Env) (k : string) :
  let this :=
    makeCarbonLookasideRoute child router client prefix keySplitSize ttl helper ls in
  helper_cacheCandidate helper req (env w) = (true, e1) ->
  helper_buildKey helper req e1 = (k, e2) ->
  let keySuffix :=
    if (keySplitSize <=? 1)%N then EmptyString
    else (":ks" ++ to_string_N (hostid mod keySplitSize))%string in
  let key := (prefix ++ k ++ keySuffix)%string in
  keySuffix_ this = keySuffix
  /\ fst (buildKey this req {| env := e1; trace := trace w |}) = key
  /\ exists reads tail : list Event,
       trace (snd (route this req w)) = trace w ++ reads ++ tail
       /\ Forall (fun e => isReadStep e = true) reads
       /\ (forall e key', In e (reads ++ tail) -> eventKey e = Some key' ->
              key' = key)
       /\ ((reads = [] /\ enableLeases ls = true /\ numRetries ls < 0)
           \/ exists e,
                In e reads /\ isCacheWrite e = false /\ eventKey e = Some key)
       /\ ((tail = []
            /\ exists e value, lastReply reads = Some e /\ hitWith value e)
           \/ exists reply task,
                tail = [EvChildRoute child req reply; EvAddTask task]
                /\ fst (route this req w) = Return reply
                /\ eventKey (EvAddTask task) = Some key
                /\ taskValue task = serialize reply).
Proof.
  intros this Hcand Hkey keySuffix key.
  split; [reflexivity|]. split.
  - unfold buildKey, bind, call, ret. cbn [env carbonLookasideHelper_ this
      makeCarbonLookasideRoute].
    rewrite Hkey. reflexivity.
  - exact (route_one_key this req w e1 e2 k Hcand Hkey).
Qed.

End OneKey.

(** * Further properties of construction *)

Section KeySplit.

Context `{RI : RouterInfo}.

Lemma to_string_N_inj (a b : N) : to_string_N a = to_string_N b -> a = b.
Proof.
  unfold to_string_N. intros H.
  apply DecimalN.Unsigned.to_uint_inj.
  apply (f_equal NilEmpty.uint_of_string) in H.
  rewrite !NilEmpty.usu in H. congruence.
Qed.

(** X11.  Two hosts build the same key suffix for a split size exactly when
    the size is at most 1, where the suffix is empty on every host, or their
    host ids are congruent modulo the size. *)
Theorem buildKeySuffix_same_iff_congruent (host1 host2 : Externals)
    (keySplitSize : N) :
  buildKeySuffix (EI := host1) keySplitSize
  = buildKeySuffix (EI := host2) keySplitSize
  <-> ((keySplitSize <= 1)%N
       \/ (hostid (Externals := host1) mod keySplitSize
           = hostid (Externals := host2) mod keySplitSize)%N).
Proof.
  unfold buildKeySuffix.
  destruct (N.leb_spec keySplitSize 1) as [Hle|Hgt].
  - split; [left; exact Hle|reflexivity].
  - split.
    + intros H. right. cbn in H. injection H as H.
      exact (to_string_N_inj _ _ H).
    + intros [Hle|Heq]; [lia|]. rewrite Heq. reflexivity.
Qed.

End KeySplit.


Section FactoryRuns.

Context `{RI : RouterInfo} `{HI : !CarbonLookasideHelperIf}
        `{MI : !MemcacheRouterInfo} `{EI : !Externals}.

Lemma stringProperty_returns (json : dynamic) (key default what value : string) :
  stringProperty json key default what = Return value ->
  (forall j, get_ptr json key = Some j -> isString j = true)
  /\ value = match get_ptr json key with
             | Some j => getString j
             | None => default
             end.
Proof.
  unfold stringProperty.
  destruct (get_ptr json key) as [j|].
  - intros H. exc_step H. unfold checkLogic in E.
    destruct (isString j) eqn:Hstr; [|discriminate E].
    split; [intros j' [= <-]; exact Hstr|congruence].
  - intros [= <-]. split; [discriminate|reflexivity].
Qed.

Lemma stringProperty_accepts (json : dynamic) (key default what : string) :
  (forall j, get_ptr json key = Some j -> isString j = true) ->
  stringProperty json key default what
  = Return match get_ptr json key with
           | Some j => getString j
           | None => default
           end.
Proof.
  unfold stringProperty. intros Hstr.
  destruct (get_ptr json key) as [j|]; [|reflexivity].
  rewrite (Hstr j eq_refl). reflexivity.
Qed.

(** What a returning run of the factory went through, and what it built. *)
Lemma factory_inversion (json : dynamic) (h : CreatedRouteHandle) :
  createCarbonLookasideRoute json = Return h ->
  configAccepted json
  /\ exists jChild child n ls,
       get_ptr json "child" = Some jChild
       /\ factory_create jChild = Some child
       /\ get_ptr json "ttl" = Some (DInt n)
       /\ parseLeaseSettings json = Return ls
       /\ h = match acquireCacheClient (configFlavor json) with
              | Some (router, client) =>
                  MadeRouteHandle
                    (makeCarbonLookasideRoute child router client
                       (configPrefix json) (configKeySplitSize json)
                       (wrap_int32 n)
                       (helper_construct (get_ptr json "helper_config")) ls)
              | None => ChildItself child
              end.
Proof.
  intros Hcreate. unfold createCarbonLookasideRoute in Hcreate.
  exc_bind_step Hcreate as u0 Hobject.
  destruct (get_ptr json "child") as [jChild|] eqn:HjChild;
    [|discriminate Hcreate].
  cbn [checkNotNull exc_bind] in Hcreate.
  destruct (factory_create jChild) as [child|] eqn:Hchild;
    [|discriminate Hcreate].
  cbn [checkNotNull exc_bind] in Hcreate.
  destruct (get_ptr json "ttl") as [jTtl|] eqn:HjTtl; [|discriminate Hcreate].
  cbn [checkNotNull exc_bind] in Hcreate.
  exc_bind_step Hcreate as u1 Hint.
  exc_bind_step Hcreate as prefix Hprefix.
  exc_bind_step Hcreate as flavor Hflavor.
  exc_bind_step Hcreate as keySplitSize Hsplit.
  exc_bind_step Hcreate as ls Hparse.
  exc_bind_step Hcreate as u2 Hhelper.
  cbn zeta in Hcreate.
  unfold checkLogic in Hobject, Hint.
  destruct (isObject json) eqn:HisObject; [|discriminate Hobject].
  destruct jTtl as [| |n| | |]; try discriminate Hint.
  apply stringProperty_returns in Hprefix. destruct Hprefix as [Hprefix ->].
  apply stringProperty_returns in Hflavor. destruct Hflavor as [Hflavor ->].
  fold (configFlavor json) in Hcreate. fold (configPrefix json) in Hcreate.
  assert (Hsplit' :
    (forall j, get_ptr json "key_split_size" = Some j ->
       exists n, j = DInt n /\ 0 < n)
    /\ keySplitSize = configKeySplitSize json).
  { unfold configKeySplitSize.
    destruct (get_ptr json "key_split_size") as [j|].
    - exc_step Hsplit. unfold checkLogic in E.
      destruct j as [| |m| | |]; try discriminate E. cbn in E.
      destruct (0 <? m) eqn:Hpos; [|discriminate E].
      split; [|congruence].
      intros j' [= <-]. exists m. split; [reflexivity|].
      apply Z.ltb_lt. exact Hpos.
    - split; [discriminate|congruence]. }
  destruct Hsplit' as [Hsplit' ->].
  assert (Hhelper' :
    forall j, get_ptr json "helper_config" = Some j -> isObject j = true).
  { intros j Hj. rewrite Hj in Hhelper. unfold checkLogic in Hhelper.
    destruct (isObject j); [reflexivity|discriminate Hhelper]. }
  split.
  - unfold configAccepted. repeat split; eauto.
  - exists jChild, child, n, ls. repeat split; auto.
    unfold acquireCacheClient. cbn [getInt] in Hcreate.
    destruct (createCarbonLookasideRouter _ (configFlavor json)) as [router|];
      [|congruence].
    destruct (createClient router 0); congruence.
Qed.

Lemma factory_accepts (json : dynamic) :
  configAccepted json -> exists h, createCarbonLookasideRoute json = Return h.
Proof.
  intros (Hobject & (jChild & child & HjChild & Hchild) & (n & Httl)
          & Hprefix & Hflavor & Hsplit & (ls & Hparse) & Hhelper).
  unfold createCarbonLookasideRoute.
  rewrite Hobject, HjChild. cbn [checkLogic checkNotNull exc_bind].
  rewrite Hchild, Httl. cbn [checkNotNull exc_bind isInt checkLogic].
  rewrite (stringProperty_accepts _ _ _ _ Hprefix).
  rewrite (stringProperty_accepts _ _ _ _ Hflavor).
  cbn [exc_bind].
  assert (Hks : exists ks,
    match get_ptr json "key_split_size" with
    | Some j =>
        exc_bind
          (checkLogic (isInt j && (0 <? getInt j))
             "CarbonLookasideRoute: 'key_split_size' must be a positive integer")
          (fun _ => Return (Z.to_N (getInt j)))
    | None => Return 1%N
    end = Return ks).
  { destruct (get_ptr json "key_split_size") as [j|]; [|eauto].
    destruct (Hsplit j eq_refl) as (m & -> & Hpos).
    cbn. apply Z.ltb_lt in Hpos. rewrite Hpos. cbn. eauto. }
  destruct Hks as [ks ->]. cbn [exc_bind]. rewrite Hparse. cbn [exc_bind].
  assert (Hhc :
    match get_ptr json "helper_config" with
    | Some j =>
        checkLogic (isObject j)
          "CarbonLookasideRoute: 'helper_config' is not an object"
    | None => Return tt
    end = Return tt).
  { destruct (get_ptr json "helper_config") as [j|]; [|reflexivity].
    rewrite (Hhelper j eq_refl). reflexivity. }
  rewrite Hhc. cbn [exc_bind].
  destruct (createCarbonLookasideRouter _ _) as [router|]; [|eauto].
  destruct (createClient router 0); eauto.
Qed.

(** X12.  The factory returns a route handle exactly for the configurations
    that pass its checks: an object with a [child] the route handle factory
    can build and an integer [ttl], whose [prefix] and [flavor], if present,
    are strings, whose [key_split_size], if present, is a positive integer,
    whose [helper_config], if present, is an object, and which
    [parseLeaseSettings] accepts.  It throws on every other configuration,
    and never because the cache router or its client is missing. *)
Theorem factory_returns_iff_accepted (json : dynamic) :
  (exists h, createCarbonLookasideRoute json = Return h) <-> configAccepted json.
Proof.
  split.
  - intros [h Hcreate]. exact (proj1 (factory_inversion json h Hcreate)).
  - apply factory_accepts.
Qed.

(** X13.  Whatever the factory returns, wrapped or not, a traversal through
    it visits the child created from the [child] property and nothing else:
    the lookaside route is invisible to traversal. *)
Theorem factory_traversal_is_child (json : dynamic) (h : CreatedRouteHandle) :
  createCarbonLookasideRoute json = Return h ->
  exists jChild child,
    get_ptr json "child" = Some jChild
    /\ factory_create jChild = Some child
    /\ forall (T : Type) (req : Request) (t : RouteHandlePtr -> Request -> T),
         handle_traverse h req t = t child req.
Proof.
  intros Hcreate.
  destruct (factory_inversion json h Hcreate)
    as (_ & jChild & child & n & ls & HjChild & Hchild & _ & _ & ->).
  exists jChild, child. repeat split; auto.
  intros T req t.
  destruct (acquireCacheClient (configFlavor json)) as [[router client]|];
    reflexivity.
Qed.

Lemma string_append_empty_r (s : string) : (s ++ "")%string = s.
Proof. induction s as [|c s IH]; cbn; [|rewrite IH]; reflexivity. Qed.

Lemma wrap_int32_small (n : Z) : - 2 ^ 31 <= n < 2 ^ 31 -> wrap_int32 n = n.
Proof. intros H. unfold wrap_int32. rewrite Z.mod_small; lia. Qed.

(** X14.  A configuration with neither [prefix] nor [key_split_size] gives a
    route that uses the helper's keys as they are: every cache operation of
    a call through the returned handle carries exactly the key the helper
    built for the request. *)
Theorem factory_default_keys (json : dynamic) (h : CreatedRouteHandle)
    (req : Request) (w : World) (e1 e2 : Env) (k : string) :
  createCarbonLookasideRoute json = Return h ->
  get_ptr json "prefix" = None ->
  get_ptr json "key_split_size" = None ->
  helper_cacheCandidate (helper_construct (get_ptr json "helper_config"))
    req (env w) = (true, e1) ->
  helper_buildKey (helper_construct (get_ptr json "helper_config")) req e1
    = (k, e2) ->
  exists events : list Event,
    trace (snd (handle_route h req w)) = trace w ++ events
    /\ forall e key', In e events -> eventKey e = Some key' -> key' = k.
Proof.
  intros Hcreate Hprefix Hsplit Hcand Hkey.
  destruct (factory_inversion json h Hcreate)
    as (_ & jChild & child & n & ls & _ & _ & _ & _ & ->).
  destruct (acquireCacheClient (configFlavor json)) as [[router client]|].
  - cbn [handle_route].
    destruct (route_keys
                (makeCarbonLookasideRoute child router client
                   (configPrefix json) (configKeySplitSize json) (wrap_int32 n)
                   (helper_construct (get_ptr json "helper_config")) ls)
                req w e1 e2 k Hcand Hkey) as (events & Htr & Hkeys).
    exists events. split; [exact Htr|].
    intros e key' He Hk. rewrite (Hkeys e key' He Hk).
    unfold configPrefix, configKeySplitSize. rewrite Hprefix, Hsplit.
    cbn. apply string_append_empty_r.
  - cbn [handle_route]. rewrite routeHandle_route_run. cbn [snd trace].
    eexists; split; [reflexivity|].
    intros e key' [<-|[]] Hk. discriminate Hk.
Qed.

(** X15.  The configured [ttl], narrowed to [int32_t], is the expiration
    of every write dispatched through the returned handle; a [ttl] within
    the 32-bit range is used as it is. *)
Theorem factory_ttl_is_exptime (json : dynamic) (h : CreatedRouteHandle)
    (n : Z) (req : Request) (w : World) :
  createCarbonLookasideRoute json = Return h ->
  get_ptr json "ttl" = Some (DInt n) ->
  exists events : list Event,
    trace (snd (handle_route h req w)) = trace w ++ events
    /\ forall task, In (EvAddTask task) events ->
         taskExptime task = wrap_int32 n
         /\ (- 2 ^ 31 <= n < 2 ^ 31 -> taskExptime task = n).
Proof.
  intros Hcreate Httl.
  destruct (factory_inversion json h Hcreate)
    as (_ & jChild & child & n' & ls & _ & _ & Httl' & _ & ->).
  assert (n' = n) as -> by congruence.
  destruct (acquireCacheClient (configFlavor json)) as [[router client]|].
  - cbn [handle_route].
    destruct (route_written_tasks
                (makeCarbonLookasideRoute child router client
                   (configPrefix json) (configKeySplitSize json) (wrap_int32 n)
                   (helper_construct (get_ptr json "helper_config")) ls)
                req w) as (events & Htr & Htasks).
    exists events. split; [exact Htr|].
    intros task Hin. destruct (Htasks task Hin) as (reply & _ & _ & Hexp).
    cbn [ttl_ makeCarbonLookasideRoute] in Hexp.
    split; [exact Hexp|]. intros Hrange.
    rewrite Hexp. apply wrap_int32_small. exact Hrange.
  - cbn [handle_route]. rewrite routeHandle_route_run. cbn [snd trace].
    eexists; split; [reflexivity|].
    intros task [H|[]]. discriminate H.
Qed.


(** X17.  When a router exists for the configured flavor and creates a
    client, a returning factory call hands back a new lookaside route around
    the created child: it talks to that client, keeps that router, and takes
    its prefix, key suffix, expiration, helper and lease settings from the
    configuration. *)
Theorem factory_wraps_child (json : dynamic) (h : CreatedRouteHandle)
    (router : CarbonRouterInstance) (client : CarbonRouterClient) :
  createCarbonLookasideRoute json = Return h ->
  acquireCacheClient (configFlavor json) = Some (router, client) ->
  exists r jChild n ls,
    h = MadeRouteHandle r
    /\ get_ptr json "child" = Some jChild
    /\ factory_create jChild = Some (child_ r)
    /\ get_ptr json "ttl" = Some (DInt n)
    /\ parseLeaseSettings json = Return ls
    /\ router_ r = router
    /\ client_ r = client
    /\ keyPrefix_ r = configPrefix json
    /\ keySuffix_ r = buildKeySuffix (configKeySplitSize json)
    /\ ttl_ r = wrap_int32 n
    /\ carbonLookasideHelper_ r = helper_construct (get_ptr json "helper_config")
    /\ leaseSettings_ r = ls.
Proof.
  intros Hcreate Hacquire.
  destruct (factory_inversion json h Hcreate)
    as (_ & jChild & child & n & ls & HjChild & Hchild & Httl & Hparse & ->).
  rewrite Hacquire.
  eexists; exists jChild, n, ls.
  split; [reflexivity|]. cbn. repeat split; auto.
Qed.


End FactoryRuns.


(** * The scenarios *)

Import Scenario.

#[local] Existing Instances testRouterInfo testHelper testMemcache testExternals.

Local Open Scope string_scope.

(** S2: a hit with leases off; the child is never routed to. *)
Lemma route_cache_hit_witness :
  route (testRoute 1 leasesOff) (cacheable "k")
    (start [hit (test_serialize (childReply "zz"))] [])
  = (Return (childReply "zz"),
     after [] []
       [EvSendGet {| get_key := "p:k" |} (hit (test_serialize (childReply "zz")))])
  /\ childRouteCalls
       [EvSendGet {| get_key := "p:k" |} (hit (test_serialize (childReply "zz")))]
     = childRouteCalls []
  /\ exists value, test_deserialize value = Return (childReply "zz").
Proof.
  apply (route_cache_hit (testRoute 1 leasesOff) (cacheable "k")
           (start [hit (test_serialize (childReply "zz"))] [])
           (script [hit (test_serialize (childReply "zz"))] [])
           (script [hit (test_serialize (childReply "zz"))] [])
           "k" (childReply "zz") 0); reflexivity.
Defined.

(** S1: a cold miss with leases off. *)
Lemma route_cache_miss_witness :
  fst (route (testRoute 1 leasesOff) (cacheable "k") (start [miss] []))
  = Return (childReply "k")
  /\ filter isChildRoute
       (trace (snd (route (testRoute 1 leasesOff) (cacheable "k") (start [miss] []))))
     = ([] ++ [EvChildRoute "A" (cacheable "k") (childReply "k")])%list
  /\ childRouteCalls
       (trace (snd (route (testRoute 1 leasesOff) (cacheable "k") (start [miss] []))))
     = (childRouteCalls [] + 1)%nat.
Proof.
  apply (route_cache_miss (testRoute 1 leasesOff) (cacheable "k")
           (start [miss] []) (script [miss] []) (script [miss] []) "k" 0
           (after [] [] [EvSendGet {| get_key := "p:k" |} miss]));
    reflexivity.
Defined.

(** S6: a request the helper turns down. *)
Lemma route_not_candidate_witness :
  route (testRoute 1 leasesOff) (uncacheable "k") (start [miss] [])
  = (Return (childReply "k"),
     after [miss] [] [EvChildRoute "A" (uncacheable "k") (childReply "k")])
  /\ cacheOperations
       (trace (snd (route (testRoute 1 leasesOff) (uncacheable "k") (start [miss] []))))
     = cacheOperations []
  /\ childRouteCalls
       (trace (snd (route (testRoute 1 leasesOff) (uncacheable "k") (start [miss] []))))
     = (childRouteCalls [] + 1)%nat.
Proof.
  apply (route_not_candidate (testRoute 1 leasesOff) (uncacheable "k")
           (start [miss] []) (script [miss] []));
    reflexivity.
Defined.

(** S3: three hot misses, then a miss with token 42. *)
Example scenario_hot_miss_burst :
  route (testRoute 1 (leasesOn 2 8 3)) (cacheable "k")
    (start [] [leaseMiss 1; leaseMiss 1; leaseMiss 1; leaseMiss 42])
  = (Return (childReply "k"),
     after [] []
       [leaseGetSent "p:k" (leaseMiss 1);
        EvSleep 2;
        leaseGetSent "p:k" (leaseMiss 1);
        EvSleep 4;
        leaseGetSent "p:k" (leaseMiss 1);
        EvSleep 8;
        leaseGetSent "p:k" (leaseMiss 42);
        EvChildRoute "A" (cacheable "k") (childReply "k");
        EvAddTask
          (TaskSendLeaseSet
             {| lease_set_key := "p:k";
                lease_set_exptime := 10;
                lease_set_leaseToken := 42;
                lease_set_value := test_serialize (childReply "k") |})]).
Proof. reflexivity. Qed.

(** C4 as stated fails: with one retry and two hot misses the read is
    exhausted, and [route] still dispatches a cache write, a plain SET. *)
Lemma hot_miss_exhausted_still_writes :
  leaseGetReplies
    (trace (snd (route (testRoute 1 (leasesOn 2 8 1)) (cacheable "k")
                   (start [] [leaseMiss 1; leaseMiss 1]))))
  = [leaseMiss 1; leaseMiss 1]
  /\ cacheWrites
       (trace (snd (route (testRoute 1 (leasesOn 2 8 1)) (cacheable "k")
                      (start [] [leaseMiss 1; leaseMiss 1]))))
     = [EvAddTask
          (TaskSendSet {| set_key := "p:k";
                          set_exptime := 10;
                          set_value := test_serialize (childReply "k") |})].
Proof. split; reflexivity. Qed.

(** The same run, step by step: two attempts, then the child and a SET. *)
Lemma route_hot_miss_exhausted_witness :
  List.length
    (leaseGetReplies
       [leaseGetSent "p:k" (leaseMiss 1); EvSleep 2;
        leaseGetSent "p:k" (leaseMiss 1)])
  = Z.to_nat (1 + 1)
  /\ @Return (option TestReply) None = Return None /\ 0 = 0
  /\ route (testRoute 1 (leasesOn 2 8 1)) (cacheable "k")
       (start [] [leaseMiss 1; leaseMiss 1])
     = (Return (childReply "k"),
        after [] []
          ([leaseGetSent "p:k" (leaseMiss 1); EvSleep 2;
            leaseGetSent "p:k" (leaseMiss 1)]
           ++ [EvChildRoute "A" (cacheable "k") (childReply "k");
               EvAddTask
                 (TaskSendSet {| set_key := "p:k";
                                 set_exptime := 10;
                                 set_value := test_serialize (childReply "k") |})])%list).
Proof.
  apply (route_hot_miss_exhausted (testRoute 1 (leasesOn 2 8 1)) (cacheable "k")
           (start [] [leaseMiss 1; leaseMiss 1])
           (script [] [leaseMiss 1; leaseMiss 1])
           (script [] [leaseMiss 1; leaseMiss 1])
           "k" (Return None) 0
           (after [] []
              [leaseGetSent "p:k" (leaseMiss 1); EvSleep 2;
               leaseGetSent "p:k" (leaseMiss 1)])
           [leaseGetSent "p:k" (leaseMiss 1); EvSleep 2;
            leaseGetSent "p:k" (leaseMiss 1)]);
    try reflexivity.
  repeat constructor.
Defined.

(** A hot miss, then a miss with token 0. *)
Lemma route_lease_miss_token_zero_witness :
  lastReply
    [leaseGetSent "p:k" (leaseMiss 1); EvSleep 2;
     leaseGetSent "p:k" (leaseMiss 0)]
  = Some (leaseGetSent "p:k" (leaseMiss 0))
  /\ @Return (option TestReply) None = Return None /\ 0 = 0
  /\ route (testRoute 1 (leasesOn 2 8 3)) (cacheable "k")
       (start [] [leaseMiss 1; leaseMiss 0; leaseMiss 7])
     = (Return (childReply "k"),
        after [] [leaseMiss 7]
          ([leaseGetSent "p:k" (leaseMiss 1); EvSleep 2;
            leaseGetSent "p:k" (leaseMiss 0)]
           ++ [EvChildRoute "A" (cacheable "k") (childReply "k");
               EvAddTask
                 (TaskSendSet {| set_key := "p:k";
                                 set_exptime := 10;
                                 set_value := test_serialize (childReply "k") |})])%list).
Proof.
  apply (route_lease_miss_token_zero (testRoute 1 (leasesOn 2 8 3)) (cacheable "k")
           (start [] [leaseMiss 1; leaseMiss 0; leaseMiss 7])
           (script [] [leaseMiss 1; leaseMiss 0; leaseMiss 7])
           (script [] [leaseMiss 1; leaseMiss 0; leaseMiss 7])
           "k" (Return None) 0
           (after [] [leaseMiss 7]
              [leaseGetSent "p:k" (leaseMiss 1); EvSleep 2;
               leaseGetSent "p:k" (leaseMiss 0)])
           [leaseGetSent "p:k" (leaseMiss 1); EvSleep 2;
            leaseGetSent "p:k" (leaseMiss 0)]
           (leaseMiss 0));
    try reflexivity.
  right; left; reflexivity.
Defined.

(** S5: key split 4 on host 6; a miss, so the child and the SET follow. *)
Lemma route_uses_one_key_witness :
  keySuffix_ (testRoute 4 leasesOff) = ":ks2"
  /\ fst (buildKey (testRoute 4 leasesOff) (cacheable "k") (start [miss] []))
     = "p:" ++ "k" ++ ":ks2"
  /\ exists reads tail : list Event,
       trace (snd (route (testRoute 4 leasesOff) (cacheable "k") (start [miss] [])))
       = ([] ++ reads ++ tail)%list
       /\ Forall (fun e => isReadStep e = true) reads
       /\ (forall e key', In e (reads ++ tail)%list -> eventKey e = Some key' ->
              key' = "p:" ++ "k" ++ ":ks2")
       /\ ((reads = [] /\ enableLeases leasesOff = true /\ numRetries leasesOff < 0)
           \/ exists e,
                In e reads /\ isCacheWrite e = false
                /\ eventKey e = Some ("p:" ++ "k" ++ ":ks2"))
       /\ ((tail = []
            /\ exists e value, lastReply reads = Some e /\ hitWith value e)
           \/ exists reply task,
                tail = [EvChildRoute childA (cacheable "k") reply; EvAddTask task]
                /\ fst (route (testRoute 4 leasesOff) (cacheable "k")
                          (start [miss] []))
                   = Return reply
                /\ eventKey (EvAddTask task) = Some ("p:" ++ "k" ++ ":ks2")
                /\ taskValue task = serialize reply).
Proof.
  apply (route_uses_one_key (RI := testRouterInfo) (HI := testHelper)
           (MI := testMemcache) (EI := testExternals)
           childA true tt "p:" 4 10 tt leasesOff (cacheable "k")
           (start [miss] []) (script [miss] []) (script [miss] []) "k");
    reflexivity.
Defined.

(** The same with a hit: the call stops after the read. *)
Example scenario_key_split_hit :
  route (testRoute 4 leasesOff) (cacheable "k")
    (start [hit (test_serialize (childReply "zz"))] [])
  = (Return (childReply "zz"),
     after [] [] [getSent "p:k:ks2" (hit (test_serialize (childReply "zz")))]).
Proof. reflexivity. Qed.

Example scenario_key_split :
  cacheOperations
    (trace (snd (route (testRoute 4 leasesOff) (cacheable "k") (start [miss] []))))
  = [EvSendGet {| get_key := "p:k:ks2" |} miss;
     EvAddTask (TaskSendSet {| set_key := "p:k:ks2";
                               set_exptime := 10;
                               set_value := test_serialize (childReply "k") |})].
Proof. reflexivity. Qed.


(** The same under leases: the hit that does not decode comes after a hot
    miss and ends the call; the reply scripted after it is never asked
    for. *)
Example scenario_undecodable_lease_hit :
  route (testRoute 1 (leasesOn 2 8 3)) (cacheable "k")
    (start [] [leaseMiss 1; leaseHit []; leaseMiss 7])
  = (Throw "underflow",
     after [] [leaseMiss 7]
       [leaseGetSent "p:k" (leaseMiss 1); EvSleep 2;
        leaseGetSent "p:k" (leaseHit [])]).
Proof. reflexivity. Qed.


(** A lease read, in full: two hot misses, then a miss with token 42. *)
Example scenario_lease_read :
  carbonLookasideLeaseGet (testRoute 1 (leasesOn 2 8 3)) "p:k" 5
    (start [] [leaseMiss 1; leaseMiss 1; leaseMiss 42; leaseMiss 7])
  = (Return None, 42,
     after [] [leaseMiss 7]
       [leaseGetSent "p:k" (leaseMiss 1); EvSleep 2;
        leaseGetSent "p:k" (leaseMiss 1); EvSleep 4;
        leaseGetSent "p:k" (leaseMiss 42)])
  /\ leaseGetAnswers tt {| lease_get_key := "p:k" |} 3
       (script [] [leaseMiss 1; leaseMiss 1; leaseMiss 42; leaseMiss 7])
     = ([leaseMiss 1; leaseMiss 1; leaseMiss 42], script [] [leaseMiss 7]).
Proof. split; reflexivity. Qed.


Example scenario_no_client :
  createCarbonLookasideRoute (testConfig "noclient") = Return (ChildItself childA)
  /\ createCarbonLookasideRoute (testConfig "web")
     = Return (MadeRouteHandle
                 (makeCarbonLookasideRoute childA true tt "p:" 1 10 tt
                    defaultLeaseSettings)).
Proof. split; reflexivity. Qed.

(** * More runs of the scenarios *)


(** A hot miss, then an error reply: the read stops there. *)
Lemma route_lease_read_failure_witness :
  lastReply
    [leaseGetSent "p:k" (leaseMiss 1); EvSleep 2; leaseGetSent "p:k" leaseError]
  = Some (leaseGetSent "p:k" leaseError)
  /\ route (testRoute 1 (leasesOn 2 8 3)) (cacheable "k")
       (start [] [leaseMiss 1; leaseError; leaseMiss 7])
     = (Return (childReply "k"),
        after [] [leaseMiss 7]
          ([leaseGetSent "p:k" (leaseMiss 1); EvSleep 2;
            leaseGetSent "p:k" leaseError]
           ++ [childRouted (cacheable "k"); setTask "p:k" (childReply "k")])%list).
Proof.
  apply (route_lease_read_failure (testRoute 1 (leasesOn 2 8 3)) (cacheable "k")
           (start [] [leaseMiss 1; leaseError; leaseMiss 7])
           (script [] [leaseMiss 1; leaseError; leaseMiss 7])
           (script [] [leaseMiss 1; leaseError; leaseMiss 7])
           "k" (Return None) 0
           (after [] [leaseMiss 7]
              [leaseGetSent "p:k" (leaseMiss 1); EvSleep 2;
               leaseGetSent "p:k" leaseError])
           [leaseGetSent "p:k" (leaseMiss 1); EvSleep 2;
            leaseGetSent "p:k" leaseError]
           leaseError);
    try reflexivity.
  - right; left; reflexivity.
  - left; reflexivity.
Defined.

(** Leases on with [numRetries = -1]: the scripted reply is never asked for. *)
Lemma route_negative_retries_witness :
  route (testRoute 1 (leasesOn 2 8 (-1))) (cacheable "k") (start [] [leaseMiss 42])
  = (Return (childReply "k"),
     after [] [leaseMiss 42]
       [childRouted (cacheable "k"); setTask "p:k" (childReply "k")]).
Proof.
  apply (route_negative_retries (testRoute 1 (leasesOn 2 8 (-1))) (cacheable "k")
           (start [] [leaseMiss 42]) (script [] [leaseMiss 42])
           (script [] [leaseMiss 42]) "k");
    first [reflexivity | cbn; lia].
Defined.

(** The hot-miss burst sleeps 2 + 4 + 8 ms, within 3 * 8. *)
Lemma route_sleep_bound_witness :
  exists events : list Event,
    trace (snd (route (testRoute 1 (leasesOn 2 8 3)) (cacheable "k")
                  (start [] [leaseMiss 1; leaseMiss 1; leaseMiss 1; leaseMiss 42])))
    = ([] ++ events)%list
    /\ Forall (fun ms => 0 <= ms <= 8) (sleeps events)
    /\ Z.of_nat (List.length (sleeps events)) <= 3
    /\ sleptMs events = fold_right Z.add 0 (sleeps events)
    /\ 0 <= sleptMs events <= 3 * 8.
Proof.
  apply (route_sleep_bound (testRoute 1 (leasesOn 2 8 3)) (cacheable "k")
           (start [] [leaseMiss 1; leaseMiss 1; leaseMiss 1; leaseMiss 42]));
    cbn; lia.
Defined.

Example scenario_sleeps :
  sleeps
    (trace (snd (route (testRoute 1 (leasesOn 2 8 3)) (cacheable "k")
                   (start [] [leaseMiss 1; leaseMiss 1; leaseMiss 1; leaseMiss 42]))))
  = [2; 4; 8].
Proof. reflexivity. Qed.

Lemma lease_read_sleeps_double_witness :
  exists (events : list Event) (n : nat),
    trace (snd (carbonLookasideLeaseGet (testRoute 1 (leasesOn 2 8 3)) "p:k" 0
                  (start [] [leaseMiss 1; leaseMiss 1; leaseMiss 1; leaseMiss 42])))
    = ([] ++ events)%list
    /\ Z.of_nat n <= Z.max 0 3
    /\ filter (fun e => negb (isLeaseGet e)) events
       = map (fun i => EvSleep (Z.min (2 * 2 ^ Z.of_nat i) 8)) (seq 0 n).
Proof.
  apply (lease_read_sleeps_double (testRoute 1 (leasesOn 2 8 3)) "p:k" 0
           (start [] [leaseMiss 1; leaseMiss 1; leaseMiss 1; leaseMiss 42]));
    cbn; lia.
Defined.

(** Two requests with one memcache key have one helper key. *)
Lemma buildKey_injective_witness :
  fst (helper_buildKey tt (cacheable "k") (script [] []))
  = fst (helper_buildKey tt (uncacheable "k") (script [miss] [])).
Proof.
  apply (buildKey_injective (testRoute 4 leasesOff) (cacheable "k")
           (uncacheable "k") (start [] []) (start [miss] [])).
  reflexivity.
Defined.

(** The wrapped handle of the "web" flavor traverses to the child. *)
Lemma factory_traversal_is_child_witness :
  exists jChild child,
    get_ptr (testConfig "web") "child" = Some jChild
    /\ factory_create jChild = Some child
    /\ forall (T : Type) (req : Request) (t : RouteHandlePtr -> Request -> T),
         handle_traverse (MadeRouteHandle (testRoute 1 leasesOff)) req t
         = t child req.
Proof.
  apply (factory_traversal_is_child (testConfig "web")
           (MadeRouteHandle (testRoute 1 leasesOff))).
  reflexivity.
Defined.

(** A configuration of [child] and [ttl] only: the keys are the helper's. *)
Lemma factory_default_keys_witness :
  exists events : list Event,
    trace (snd (handle_route (MadeRouteHandle bareRoute) (cacheable "k")
                  (start [miss] [])))
    = ([] ++ events)%list
    /\ forall e key', In e events -> eventKey e = Some key' -> key' = "k".
Proof.
  apply (factory_default_keys bareConfig (MadeRouteHandle bareRoute)
           (cacheable "k") (start [miss] []) (script [miss] [])
           (script [miss] []) "k"); reflexivity.
Defined.

Lemma factory_ttl_is_exptime_witness :
  exists events : list Event,
    trace (snd (handle_route (MadeRouteHandle bareRoute) (cacheable "k")
                  (start [miss] [])))
    = ([] ++ events)%list
    /\ forall task, In (EvAddTask task) events ->
         taskExptime task = wrap_int32 10
         /\ (- 2 ^ 31 <= 10 < 2 ^ 31 -> taskExptime task = 10).
Proof.
  apply (factory_ttl_is_exptime bareConfig (MadeRouteHandle bareRoute) 10
           (cacheable "k") (start [miss] []));
    reflexivity.
Defined.

(** On the storing cache: a miss, the SET, and the same request again. *)
Lemma route_miss_then_hit_witness :
  fst (route StoreScenario.storeRoute (cacheable "k") StoreScenario.emptyWorld)
  = Return (childReply "k")
  /\ filter isCacheWrite
    (trace (snd (route StoreScenario.storeRoute (cacheable "k")
                   StoreScenario.emptyWorld)))
  = ([] ++ [EvAddTask
              (TaskSendSet
                 {| set_key := "p:k";
                    set_exptime := 10;
                    set_value := test_serialize (childReply "k") |})])%list
  /\ fst (route StoreScenario.storeRoute (cacheable "k")
            (snd (runTask StoreScenario.storeRoute
                    (TaskSendSet
                       {| set_key := "p:k";
                          set_exptime := 10;
                          set_value := test_serialize (childReply "k") |})
                    (snd (route StoreScenario.storeRoute (cacheable "k")
                            StoreScenario.emptyWorld)))))
     = Return (childReply "k")
  /\ childRouteCalls
       (trace
          (snd (route StoreScenario.storeRoute (cacheable "k")
                  (snd (runTask StoreScenario.storeRoute
                          (TaskSendSet
                             {| set_key := "p:k";
                                set_exptime := 10;
                                set_value := test_serialize (childReply "k") |})
                          (snd (route StoreScenario.storeRoute (cacheable "k")
                                  StoreScenario.emptyWorld)))))))
     = 1%nat.
Proof.
  apply (route_miss_then_hit (RI := StoreScenario.storeRouterInfo)
           (HI := StoreScenario.storeHelper) (MI := StoreScenario.storeMemcache)
           StoreScenario.storeRoute (cacheable "k") StoreScenario.emptyWorld "k");
    try reflexivity.
  intros e s. cbn. unfold StoreScenario.store_get. cbn.
  rewrite String.eqb_refl. reflexivity.
Defined.


(** The "web" flavor has a router and a client: the child is wrapped. *)
Lemma factory_wraps_child_witness :
  exists r jChild n ls,
    MadeRouteHandle (testRoute 1 leasesOff) = MadeRouteHandle r
    /\ get_ptr (testConfig "web") "child" = Some jChild
    /\ factory_create jChild = Some (child_ r)
    /\ get_ptr (testConfig "web") "ttl" = Some (DInt n)
    /\ parseLeaseSettings (testConfig "web") = Return ls
    /\ router_ r = true
    /\ client_ r = tt
    /\ keyPrefix_ r = configPrefix (testConfig "web")
    /\ keySuffix_ r = buildKeySuffix (configKeySplitSize (testConfig "web"))
    /\ ttl_ r = wrap_int32 n
    /\ carbonLookasideHelper_ r
       = helper_construct (get_ptr (testConfig "web") "helper_config")
    /\ leaseSettings_ r = ls.
Proof.
  apply (factory_wraps_child (testConfig "web")
           (MadeRouteHandle (testRoute 1 leasesOff)) true tt);
    reflexivity.
Defined.
